(** * StockPerformance: per-ticker return statistics

    A shallow embedding of [stock_performance.py] (class [StockPerformance]).

    Conventions of the embedding.
    - A float64 is idealised: a finite value is a real number, and the three
      non-finite values [inf], [-inf] and [nan] are separate constructors of
      [npfloat].  Rounding, overflow and signed zeros are not modelled:
      the theorems over [npfloat] say which formula a method evaluates, on
      which rows, and when it raises.  Where rounding itself decides a
      question (the order of the factors of a product), the reduction is
      embedded a second time over binary64 ([prod64], [total_return64]).
    - Python objects that the class keeps or hands out (the instance, the
      merged table [daily_returns], every result DataFrame) live in a heap
      and are named by locations, so that column assignment on a DataFrame
      is a heap update and aliasing is visible.
    - The methods are computations in a state-and-exception monad over that
      heap.  Database and file access are outside the embedding: the rows
      returned by [fetchall] and [read_csv] are arguments of [__init__];
      the selection that the query makes among the rows of the database is
      the function [fetchall]. *)

From Stdlib Require Import Floats.
From Stdlib Require Import Reals Lra Lia ZArith String List.
From Stdlib Require Import Permutation Sorted OrderedTypeEx.
From stdpp Require Import base list strings.

Local Open Scope string_scope.
Local Open Scope list_scope.
Local Open Scope R_scope.

(** ** Idealised float64 values *)

Inductive npfloat : Type :=
| Real (r : R)
| PosInf
| NegInf
| NaN.

Definition np_neg (a : npfloat) : npfloat :=
  match a with
  | Real r => Real (- r)
  | PosInf => NegInf
  | NegInf => PosInf
  | NaN => NaN
  end.

Definition np_add (a b : npfloat) : npfloat :=
  match a, b with
  | NaN, _ | _, NaN => NaN
  | Real x, Real y => Real (x + y)
  | PosInf, NegInf | NegInf, PosInf => NaN
  | PosInf, _ | _, PosInf => PosInf
  | NegInf, _ | _, NegInf => NegInf
  end.

Definition np_sub (a b : npfloat) : npfloat := np_add a (np_neg b).

(** [a / b] on two finite numpy scalars: a zero divisor gives a signed
    infinity or nan (numpy warns, it does not raise). *)
Definition np_truediv (a b : R) : npfloat :=
  if Req_dec_T b 0 then
    if Req_dec_T a 0 then NaN
    else if Rlt_dec 0 a then PosInf else NegInf
  else Real (a / b).

Definition is_integer (y : R) : bool :=
  if Req_dec_T (IZR (Int_part y)) y then true else false.

(** [x ** y] for a finite exponent [y], after C's [pow]; the cases are
    those of [pow], the finite values are not rounded and do not
    overflow. *)
Definition np_pow (x : npfloat) (y : R) : npfloat :=
  if Req_dec_T y 0 then Real 1 else
  match x with
  | NaN => NaN
  | PosInf => if Rlt_dec 0 y then PosInf else Real 0
  | NegInf =>
      if Rlt_dec 0 y
      then (if is_integer y && Z.odd (Int_part y) then NegInf else PosInf)
      else Real 0
  | Real b =>
      if Rlt_dec 0 b then Real (Rpower b y)
      else if Req_dec_T b 0 then (if Rlt_dec 0 y then Real 0 else PosInf)
      else if is_integer y then Real (powerRZ b (Int_part y))
      else NaN
  end.


(** Reductions over a column of finite values, from the first row to the
    last.  Over the reals the order is immaterial; the code rounds after
    every step, for which see [prod64]. *)
Definition sum (l : list R) : R := fold_left Rplus l 0.
Definition prod (l : list R) : R := fold_left Rmult l 1.

(** [np.mean]; every group handed over by [groupby] has at least one row. *)
Definition np_mean (l : list R) : R := sum l / INR (length l).

(** [np.std] with its default [ddof = 0].  Over the reals it is zero on
    every constant column; the computed value is certain to be zero only
    when the column has a single row. *)
Definition np_var (l : list R) : R :=
  let m := np_mean l in
  sum (map (fun x => (x - m) * (x - m)) l) / INR (length l).

Definition np_std (l : list R) : R := sqrt (np_var l).

(** ** The product in binary64 *)

(** [Series.prod()] multiplies the values one after the other, in row
    order, and rounds after every factor. *)
Definition prod64 (l : list float) : float := fold_left PrimFloat.mul l 1%float.

(** [lambda x: (1 + x).prod() - 1] on binary64 values. *)
Definition total_return64 (x : list float) : float :=
  PrimFloat.sub (prod64 (map (fun r => PrimFloat.add 1%float r) x)) 1%float.

(** ** Calendar dates, after Python's [datetime] *)

Record Date : Type := mkDate { year : Z; month : Z; day : Z }.

Definition is_leap (y : Z) : bool :=
  ((y mod 4 =? 0) && (negb (y mod 100 =? 0) || (y mod 400 =? 0)))%Z.

Definition days_before_year (y : Z) : Z :=
  let p := (y - 1)%Z in (p * 365 + p / 4 - p / 100 + p / 400)%Z.

Definition days_in_month (y m : Z) : Z :=
  (if (m =? 2) && is_leap y then 29
   else nth (Z.to_nat m) [0; 31; 28; 31; 30; 31; 30; 31; 31; 30; 31; 30; 31] 0)%Z.

Definition days_before_month (y m : Z) : Z :=
  (nth (Z.to_nat m) [0; 0; 31; 59; 90; 120; 151; 181; 212; 243; 273; 304; 334] 0
   + (if (2 <? m) && is_leap y then 1 else 0))%Z.

Definition ymd2ord (d : Date) : Z :=
  (days_before_year (year d) + days_before_month (year d) (month d) + day d)%Z.

Definition valid_date (d : Date) : bool :=
  ((1 <=? year d) && (year d <=? 9999) && (1 <=? month d) && (month d <=? 12)
   && (1 <=? day d) && (day d <=? days_in_month (year d) (month d)))%Z.

(** Calendar order of two dates, field by field (the order of Python's
    [datetime] and of SQL's [date]). *)
Definition date_ltb (a b : Date) : bool :=
  ((year a <? year b)
   || ((year a =? year b)
       && ((month a <? month b)
           || ((month a =? month b) && (day a <? day b)))))%Z.

Definition date_leb (a b : Date) : bool := negb (date_ltb b a).

(** ** Tables and objects *)

(** A row of the merged table [daily_returns]; the column [return] is the
    field [return_]. *)
Record ReturnsRow : Type := mkRow {
  date : Date;
  ticker : string;
  return_ : R;
  benchmark : string;
  bench_return : R
}.

Definition loc := nat.

Record StockPerformance : Type := mkSelf {
  days_in_year : R;
  risk_free_rate : R;
  tickers : list string;
  start_date : Date;
  end_date : Date;
  interval : Z;
  daily_returns : loc
}.

Inductive obj : Type :=
| OTable (rows : list ReturnsRow)
| OFrame (index : list string) (columns : list (string * list npfloat))
| OSelf (sp : StockPerformance).

Abbreviation heap := (list obj).

(** ** The state-and-exception monad *)

Inductive exn : Type :=
| ValueError
| ZeroDivisionError
| KeyError
| AttributeError.

Inductive outcome (A : Type) : Type :=
| Ok (a : A)
| Raise (e : exn).
Arguments Ok {A} a.
Arguments Raise {A} e.

Definition M (A : Type) : Type := heap -> outcome A * heap.

Definition ret {A} (a : A) : M A := fun h => (Ok a, h).

Definition raise {A} (e : exn) : M A := fun h => (Raise e, h).

Definition bind {A B} (m : M A) (f : A -> M B) : M B :=
  fun h =>
    match m h with
    | (Ok a, h') => f a h'
    | (Raise e, h') => (Raise e, h')
    end.

Notation "x <- m ;; k" := (bind m (fun x => k))
  (at level 100, m at next level, right associativity).
Notation "m ;;; k" := (bind m (fun _ => k))
  (at level 100, right associativity).

Definition alloc (o : obj) : M loc := fun h => (Ok (length h), h ++ [o]).

Definition load (l : loc) : M obj :=
  fun h =>
    match h !! l with
    | Some o => (Ok o, h)
    | None => (Raise AttributeError, h)
    end.

Definition store (l : loc) (o : obj) : M unit := fun h => (Ok tt, <[l := o]> h).

Definition get_self (l : loc) : M StockPerformance :=
  o <- load l ;;
  match o with OSelf sp => ret sp | _ => raise AttributeError end.

Definition get_table (l : loc) : M (list ReturnsRow) :=
  o <- load l ;;
  match o with OTable rows => ret rows | _ => raise AttributeError end.

Definition get_frame (l : loc) : M (list string * list (string * list npfloat)) :=
  o <- load l ;;
  match o with OFrame idx cols => ret (idx, cols) | _ => raise AttributeError end.

(** ** DataFrame operations *)

Fixpoint assoc {V} (k : string) (kvs : list (string * V)) : option V :=
  match kvs with
  | [] => None
  | (k', v) :: rest => if String.eqb k k' then Some v else assoc k rest
  end.

(** [df[name] = vals]: replace the column in place, or append it. *)
Fixpoint set_col (name : string) (vals : list npfloat)
    (cols : list (string * list npfloat)) : list (string * list npfloat) :=
  match cols with
  | [] => [(name, vals)]
  | (n, v) :: rest =>
      if String.eqb name n then (n, vals) :: rest
      else (n, v) :: set_col name vals rest
  end.

(** [df[name]] *)
Definition getitem (df : loc) (name : string) : M (list npfloat) :=
  f <- get_frame df ;;
  match assoc name (snd f) with
  | Some vals => ret vals
  | None => raise KeyError
  end.

(** [df[name] = vals] *)
Definition setitem (df : loc) (name : string) (vals : list npfloat) : M unit :=
  f <- get_frame df ;;
  store df (OFrame (fst f) (set_col name vals (snd f))).

(** [df.columns = names] *)
Definition set_columns (df : loc) (names : list string) : M unit :=
  f <- get_frame df ;;
  if Nat.eqb (length names) (length (snd f))
  then store df (OFrame (fst f) (combine names (map snd (snd f))))
  else raise ValueError.

Fixpoint select (names : list string) (cols : list (string * list npfloat))
    : option (list (string * list npfloat)) :=
  match names with
  | [] => Some []
  | n :: rest =>
      match assoc n cols, select rest cols with
      | Some v, Some out => Some ((n, v) :: out)
      | _, _ => None
      end
  end.

(** [df[[names]]]: a new DataFrame holding the listed columns. *)
Definition getitems (df : loc) (names : list string) : M loc :=
  f <- get_frame df ;;
  match select names (snd f) with
  | Some cols => alloc (OFrame (fst f) cols)
  | None => raise KeyError
  end.

(** [pd.DataFrame(series)]: one column named after the series. *)
Definition DataFrame_of_series (name : string) (s : list (string * npfloat)) : M loc :=
  alloc (OFrame (map fst s) [(name, map snd s)]).

(** The columns of the merged table [daily_returns]. *)
Definition table_columns : list string :=
  ["date"; "ticker"; "return"; "benchmark"; "bench_return"].

(** [pd.DataFrame(grouped.apply(f))] for a grouped DataFrame and a
    function [f] that returns a number.  With at least one group, [apply]
    gives a Series indexed by the keys, and the DataFrame has the single
    column [0].  Without any group, [apply] gives an empty DataFrame that
    keeps the columns of the grouped frame. *)
Definition DataFrame_of_applied (tbl : list ReturnsRow)
    (s : list (string * npfloat)) : M loc :=
  match tbl with
  | [] => alloc (OFrame [] (map (fun c => (c, [])) table_columns))
  | _ :: _ => DataFrame_of_series "0" s
  end.

(** ** groupby *)

(** [groupby(['ticker'])] sorts the group keys (pandas' default
    [sort=True]); each key occurs once. *)
Fixpoint insert_key (k : string) (ks : list string) : list string :=
  match ks with
  | [] => [k]
  | k' :: rest =>
      match String.compare k k' with
      | Lt => k :: ks
      | Eq => ks
      | Gt => k' :: insert_key k rest
      end
  end.

Definition group_keys (tbl : list ReturnsRow) : list string :=
  fold_right insert_key [] (map ticker tbl).

(** The rows of one group, in table order. *)
Definition group_rows (k : string) (tbl : list ReturnsRow) : list ReturnsRow :=
  filter (fun r => ticker r = k) tbl.

Fixpoint mapM {A B} (f : A -> M B) (l : list A) : M (list B) :=
  match l with
  | [] => ret []
  | a :: rest => b <- f a ;; bs <- mapM f rest ;; ret (b :: bs)
  end.

(** [groupby(['ticker']).apply(f)]: [f] is called on each group in key
    order; the result is indexed by the keys. *)
Definition groupby_apply {A} (tbl : list ReturnsRow)
    (f : list ReturnsRow -> M A) : M (list (string * A)) :=
  mapM (fun k => v <- f (group_rows k tbl) ;; ret (k, v)) (group_keys tbl).

(** [groupby(['ticker'])['return'].apply(lambda x: (1 + x).prod() - 1)]
    in binary64, on the columns [ticker] and [return] of a table: the
    Series of the compounded returns, indexed by the sorted keys. *)
Definition total_returns64 (tbl : list (string * float)) : list (string * float) :=
  map (fun k => (k, total_return64 (map snd (filter (fun r => fst r = k) tbl))))
      (fold_right insert_key [] (map fst tbl)).

(** ** scikit-learn's LinearRegression, one feature, with intercept *)

(** Minimum-norm least-squares solution of [a * w ~ b] for a single
    column [a] (what [scipy.linalg.lstsq] returns: [0] when [a] is null).
    The centred column that [fit] hands over is certain to be null in
    binary64 only when it has a single row. *)
Definition lstsq (a b : list R) : R :=
  let aa := sum (zip_with Rmult a a) in
  if Req_dec_T aa 0 then 0 else sum (zip_with Rmult a b) / aa.

Record LinearRegression : Type := mkReg { coef_ : R; intercept_ : R }.

(** [LinearRegression().fit(X, y)]: centre both columns, solve the
    least-squares problem, recover the intercept from the offsets. *)
Definition fit (X y : list R) : LinearRegression :=
  let X_offset := np_mean X in
  let y_offset := np_mean y in
  let coef := lstsq (map (fun x => x - X_offset) X) (map (fun v => v - y_offset) y) in
  {| coef_ := coef; intercept_ := y_offset - X_offset * coef |}.

(** ** The class *)

(** What [fetchall] returns for the query, and the rows of the benchmark
    file; a blank [bench_return] cell reads as [None]. *)
Record DbRow : Type := mkDbRow {
  p_date : Date;
  ticker_region : string;
  one_day_pct : R
}.

Record BenchRow : Type := mkBenchRow {
  b_date : Date;
  b_benchmark : string;
  b_bench_return : option R
}.

(** The rows that the query selects, and [fetchall] returns, among the
    rows [db] of [security_reference] joined with [daily_returns]:
    [WHERE ticker_region IN tickers AND p_date >= start_date
     AND p_date <= end_date], for a tuple of at least one ticker and two
    strings that spell dates. *)
Definition fetchall (db : list DbRow) (tickers_arg : list string)
    (start_arg end_arg : Date) : list DbRow :=
  List.filter
    (fun r => existsb (String.eqb (ticker_region r)) tickers_arg
              && date_leb start_arg (p_date r)
              && date_leb (p_date r) end_arg)
    db.

Definition date_eqb (a b : Date) : bool :=
  ((year a =? year b) && (month a =? month b) && (day a =? day b))%Z.

(** [left.merge(right, on='date', how='left')]: every left row, in order,
    paired with each right row of the same date, or with nothing. *)
Definition merge_left (left : list DbRow) (right : list BenchRow)
    : list (DbRow * option BenchRow) :=
  flat_map
    (fun l =>
       match List.filter (fun b => date_eqb (b_date b) (p_date l)) right with
       | [] => [(l, None)]
       | bs => map (fun b => (l, Some b)) bs
       end)
    left.

(** [.dropna(subset=['bench_return'])] *)
Definition dropna (rows : list (DbRow * option BenchRow)) : list ReturnsRow :=
  flat_map
    (fun lb =>
       match snd lb with
       | Some b =>
           match b_bench_return b with
           | Some br =>
               [mkRow (p_date (fst lb)) (ticker_region (fst lb))
                      (one_day_pct (fst lb)) (b_benchmark b) br]
           | None => []
           end
       | None => []
       end)
    rows.

(** [dt.strptime(s, '%Y-%m-%d')]: the argument is the (year, month, day)
    that the string spells; a triple that is no calendar date is refused. *)
Definition strptime (d : Date) : M Date :=
  if valid_date d then ret d else raise ValueError.

(** [fetched] is what [fetchall] returned for the query made with the
    same [tickers], [start_date] and [end_date]. *)
Definition __init__ (fetched : list DbRow)
    (tickers_arg : list string) (start_arg end_arg : Date)
    (bench_csv : list BenchRow) : M loc :=
  let daily :=
    map (fun r => mkDbRow (p_date r) (ticker_region r) (one_day_pct r / 100))
        fetched in
  tbl <- alloc (OTable (dropna (merge_left daily bench_csv))) ;;
  s <- strptime start_arg ;;
  e <- strptime end_arg ;;
  alloc (OSelf {| days_in_year := 365.25;
                  risk_free_rate := 0.00007;
                  tickers := tickers_arg;
                  start_date := s;
                  end_date := e;
                  interval := (ymd2ord e - ymd2ord s + 1)%Z;
                  daily_returns := tbl |}).

Definition cell (v : option R) : npfloat :=
  match v with Some r => Real r | None => NaN end.

Definition capm_regression (self : loc) (data : list ReturnsRow)
    (port_returns bench_returns stat : string) : M (option R) :=
  sp <- get_self self ;;
  let X := map (fun r => bench_return r - risk_free_rate sp) data in
  let y := map (fun r => return_ r - risk_free_rate sp) data in
  let reg := fit X y in
  if String.eqb stat "beta" then ret (Some (coef_ reg))
  else if String.eqb stat "alpha" then ret (Some (intercept_ reg))
  else ret None.

(** [lambda x: (1 + x).prod() - 1] *)
Definition total_return (x : list R) : R := prod (map (fun r => 1 + r) x) - 1.

Definition calc_total_returns (self : loc) : M loc :=
  sp <- get_self self ;;
  tbl <- get_table (daily_returns sp) ;;
  s <- groupby_apply tbl (fun g => ret (Real (total_return (map return_ g)))) ;;
  returns_df <- DataFrame_of_series "return" s ;;
  set_columns returns_df ["total_return"] ;;;
  ret returns_df.

(** Python's [float / int]. *)
Definition py_truediv (a : R) (b : Z) : M R :=
  if (b =? 0)%Z then raise ZeroDivisionError else ret (a / IZR b).

Definition calc_cagrs (self : loc) : M loc :=
  cagr_df <- calc_total_returns self ;;
  tr <- getitem cagr_df "total_return" ;;
  sp <- get_self self ;;
  e <- py_truediv (days_in_year sp) (interval sp) ;;
  setitem cagr_df "cagr"
    (map (fun x => np_sub (np_pow (np_add (Real 1) x) e) (Real 1)) tr) ;;;
  getitems cagr_df ["cagr"].

Definition calc_alphas (self : loc) : M loc :=
  sp <- get_self self ;;
  tbl <- get_table (daily_returns sp) ;;
  s <- groupby_apply tbl
         (fun g => capm_regression self g "return" "bench_return" "alpha") ;;
  alpha_df <- DataFrame_of_applied tbl (map (fun kv => (fst kv, cell (snd kv))) s) ;;
  set_columns alpha_df ["capm_alpha"] ;;;
  ret alpha_df.

Definition calc_betas (self : loc) : M loc :=
  sp <- get_self self ;;
  tbl <- get_table (daily_returns sp) ;;
  s <- groupby_apply tbl
         (fun g => capm_regression self g "return" "bench_return" "beta") ;;
  beta_df <- DataFrame_of_applied tbl (map (fun kv => (fst kv, cell (snd kv))) s) ;;
  set_columns beta_df ["capm_beta"] ;;;
  ret beta_df.

(** [lambda x: (np.mean(x) - self.risk_free_rate) / np.std(x)] *)
Definition sharpe_lambda (self : loc) (x : list R) : M npfloat :=
  sp <- get_self self ;;
  ret (np_truediv (np_mean x - risk_free_rate sp) (np_std x)).

Definition calc_sharpe_ratios (self : loc) : M loc :=
  sp <- get_self self ;;
  tbl <- get_table (daily_returns sp) ;;
  s <- groupby_apply tbl (fun g => sharpe_lambda self (map return_ g)) ;;
  sharpe_df <- DataFrame_of_series "return" s ;;
  set_columns sharpe_df ["sharpe_ratio"] ;;;
  ret sharpe_df.

(** ** Reading a result *)

(** The column [col] of the DataFrame at [l], as (ticker, value) pairs in
    index order. *)
Definition read_stat (h : heap) (l : loc) (col : string)
    : option (list (string * npfloat)) :=
  match h !! l with
  | Some (OFrame idx cols) =>
      match assoc col cols with
      | Some vals => Some (combine idx vals)
      | None => None
      end
  | _ => None
  end.

(** Call a method and read one column of the DataFrame it returns. *)
Definition run_stat (m : M loc) (col : string) (h : heap)
    : outcome (list (string * npfloat)) :=
  match m h with
  | (Ok l, h') =>
      match read_stat h' l col with
      | Some s => Ok s
      | None => Raise KeyError
      end
  | (Raise e, _) => Raise e
  end.

(** [self] names an instance whose [daily_returns] is the table [tbl]. *)
Definition analyzer_at (h : heap) (self : loc) (sp : StockPerformance)
    (tbl : list ReturnsRow) : Prop :=
  h !! self = Some (OSelf sp) /\ h !! daily_returns sp = Some (OTable tbl).

(** ** What the per-group functions compute *)

(** The values that the three per-group functions compute, as functions of
    the group alone. *)
Definition capm_value (rf : R) (data : list ReturnsRow) (stat : string) : option R :=
  let reg := fit (map (fun r => bench_return r - rf) data)
                 (map (fun r => return_ r - rf) data) in
  if String.eqb stat "beta" then Some (coef_ reg)
  else if String.eqb stat "alpha" then Some (intercept_ reg)
  else None.

Definition sharpe_value (rf : R) (x : list R) : npfloat :=
  np_truediv (np_mean x - rf) (np_std x).

Definition cagr_value (e : R) (x : npfloat) : npfloat :=
  np_sub (np_pow (np_add (Real 1) x) e) (Real 1).

Definition total_return_of (d : list ReturnsRow) : npfloat :=
  Real (total_return (map return_ d)).

(** One value per group key, in key order. *)
Definition by_ticker (g : list ReturnsRow -> npfloat) (tbl : list ReturnsRow)
    : list (string * npfloat) :=
  map (fun k => (k, g (group_rows k tbl))) (group_keys tbl).

(** ** The five methods as one family *)

Inductive stat_method : Type :=
| TotalReturns
| Cagrs
| Alphas
| Betas
| SharpeRatios.

Definition call (m : stat_method) (self : loc) : M loc :=
  match m with
  | TotalReturns => calc_total_returns self
  | Cagrs => calc_cagrs self
  | Alphas => calc_alphas self
  | Betas => calc_betas self
  | SharpeRatios => calc_sharpe_ratios self
  end.

Definition column_of (m : stat_method) : string :=
  match m with
  | TotalReturns => "total_return"
  | Cagrs => "cagr"
  | Alphas => "capm_alpha"
  | Betas => "capm_beta"
  | SharpeRatios => "sharpe_ratio"
  end.

(** The heap after calling the methods [ms] one after the other. *)
Definition call_all (ms : list stat_method) (self : loc) (h : heap) : heap :=
  fold_left (fun h' m => snd (call m self h')) ms h.

(** ** Reference definitions from the specification *)

(** Following the specification: one ordinary-least-squares fit per
    ticker, returning both coefficients together.  The coefficients are
    the solution of the normal equations of [y = alpha + beta * x]. *)
Record CapmFit : Type := mkFit { alpha : R; beta : R }.

Definition ols_fit (xs ys : list R) : CapmFit :=
  let n := INR (length xs) in
  let sx := sum xs in
  let sy := sum ys in
  let sxx := sum (zip_with Rmult xs xs) in
  let sxy := sum (zip_with Rmult xs ys) in
  let b := (n * sxy - sx * sy) / (n * sxx - sx * sx) in
  {| alpha := (sy - b * sx) / n; beta := b |}.

Definition shared_fit (rf : R) (rows : list ReturnsRow) : CapmFit :=
  ols_fit (map (fun r => bench_return r - rf) rows)
          (map (fun r => return_ r - rf) rows).

(** Sum of squared residuals of the line [a + b * x] on the excess returns. *)
Definition sse (rf : R) (rows : list ReturnsRow) (a b : R) : R :=
  sum (map (fun r =>
              let res := (return_ r - rf) - (a + b * (bench_return r - rf)) in
              res * res) rows).

(** Following the specification: the distinct tickers in the order in
    which each is first encountered in the table. *)
Fixpoint first_encountered (seen ks : list string) : list string :=
  match ks with
  | [] => []
  | k :: rest =>
      if decide (k ∈ seen) then first_encountered seen rest
      else k :: first_encountered (k :: seen) rest
  end.

Definition keys_first_encountered (tbl : list ReturnsRow) : list string :=
  first_encountered [] (map ticker tbl).

(** ** Sample data *)

Definition demo_tbl : list ReturnsRow :=
  [ mkRow (mkDate 2017 1 3) "MSFT-US" 0.01 "SP50" 0.005;
    mkRow (mkDate 2017 1 3) "AAPL-US" 0.02 "SP50" 0.005;
    mkRow (mkDate 2017 1 4) "MSFT-US" (-0.02) "SP50" (-0.01);
    mkRow (mkDate 2017 1 4) "AAPL-US" 0.01 "SP50" (-0.01);
    mkRow (mkDate 2017 1 5) "MSFT-US" 0.03 "SP50" 0.02;
    mkRow (mkDate 2017 1 5) "AAPL-US" (-0.01) "SP50" 0.02 ].

Definition demo_sp : StockPerformance :=
  {| days_in_year := 365.25;
     risk_free_rate := 0.00007;
     tickers := ["AAPL-US"; "MSFT-US"];
     start_date := mkDate 2017 1 1;
     end_date := mkDate 2017 9 30;
     interval := 273%Z;
     daily_returns := 0%nat |}.

Definition demo_heap : heap := [OTable demo_tbl; OSelf demo_sp].

Definition demo_fetched : list DbRow :=
  [ mkDbRow (mkDate 2017 1 3) "MSFT-US" 1;
    mkDbRow (mkDate 2017 1 3) "AAPL-US" 2;
    mkDbRow (mkDate 2017 1 4) "MSFT-US" (-2);
    mkDbRow (mkDate 2017 1 4) "AAPL-US" 1;
    mkDbRow (mkDate 2017 1 5) "MSFT-US" 3;
    mkDbRow (mkDate 2017 1 5) "AAPL-US" (-1);
    mkDbRow (mkDate 2017 1 6) "AAPL-US" 4 ].

Definition demo_bench : list BenchRow :=
  [ mkBenchRow (mkDate 2017 1 3) "SP50" (Some 0.005);
    mkBenchRow (mkDate 2017 1 4) "SP50" (Some (-0.01));
    mkBenchRow (mkDate 2017 1 5) "SP50" (Some 0.02) ].

Definition flat_sp : StockPerformance :=
  {| days_in_year := 365.25;
     risk_free_rate := 0.00007;
     tickers := ["X"; "Y"];
     start_date := mkDate 2017 1 1;
     end_date := mkDate 2017 9 30;
     interval := 273%Z;
     daily_returns := 0%nat |}.

(** A table in which the only ticker has a single observation. *)
Definition lone_tbl : list ReturnsRow :=
  [ mkRow (mkDate 2017 1 3) "X" 0.01 "SP50" 0.005 ].

Definition lone_heap : heap := [OTable lone_tbl; OSelf flat_sp].



(** ** The test harness *)

(** A row of a test case: the ticker and the five expected statistics. *)
Record TestRow : Type := mkTest {
  tc_ticker : string;
  tc_total_return : R;
  tc_cagr : R;
  tc_capm_beta : R;
  tc_capm_alpha : R;
  tc_sharpe_ratio : R
}.

(** [np.rint]: the nearest integer, ties to the even one. *)
Definition rint (y : R) : Z :=
  let z := Int_part y in
  let f := y - IZR z in
  if Rlt_dec f (1 / 2) then z
  else if Rlt_dec (1 / 2) f then (z + 1)%Z
  else if Z.even z then z else (z + 1)%Z.

(** [round(decimals)] on a finite value: [rint(x * 10**d) / 10**d]. *)
Definition round_to (decimals : nat) (r : R) : R :=
  IZR (rint (r * 10 ^ decimals)) / 10 ^ decimals.

(** [DataFrame.round(decimals)] on one cell; [nan] and the infinities stay. *)
Definition np_round (decimals : nat) (x : npfloat) : npfloat :=
  match x with
  | Real r => Real (round_to decimals r)
  | _ => x
  end.

(** One element of [assert_allclose] against a finite desired value, with
    [atol = 0]: the actual value must be finite and within
    [rtol * |desired|]. *)
Definition isclose (rtol : R) (actual : npfloat) (desired : R) : bool :=
  match actual with
  | Real x => if Rle_dec (Rabs (x - desired)) (rtol * Rabs desired) then true else false
  | _ => false
  end.

(** [np.testing.assert_allclose(actual, desired, rtol=rtol)]: [true] when
    it returns, [false] when it raises [AssertionError] (different shapes,
    or an element that is not close). *)
Definition assert_allclose (actual : list npfloat) (desired : list R) (rtol : R) : bool :=
  Nat.eqb (length actual) (length desired)
  && forallb (fun ad => isclose rtol (fst ad) (snd ad)) (combine actual desired).

(** The body of one [try] block: call the method, round its result, take
    the column, and compare with the expected column rounded to four
    decimals.  An exception of the method is not an [AssertionError] and
    passes through. *)
Definition check (m : M loc) (col : string) (decimals : nat)
    (expected : list R) (rtol : R) : M bool :=
  df <- m ;;
  vals <- getitem df col ;;
  ret (assert_allclose (map (np_round decimals) vals)
                       (map (round_to 4) expected) rtol).

(** [unittests]; the second component of the result is what it prints. *)
Definition unittests (fetched : list DbRow) (test_case : list TestRow)
    (start_date end_date : Date) (bench_csv : list BenchRow)
    : M (bool * list string) :=
  stocks <- __init__ fetched (map tc_ticker test_case) start_date end_date bench_csv ;;
  ok1 <- check (calc_total_returns stocks) "total_return" 3
               (map tc_total_return test_case) 0.01 ;;
  ok2 <- check (calc_cagrs stocks) "cagr" 3 (map tc_cagr test_case) 0.01 ;;
  ok3 <- check (calc_alphas stocks) "capm_alpha" 4
               (map tc_capm_alpha test_case) 0.0001 ;;
  ok4 <- check (calc_betas stocks) "capm_beta" 2
               (map tc_capm_beta test_case) 0.01 ;;
  ok5 <- check (calc_sharpe_ratios stocks) "sharpe_ratio" 2
               (map tc_sharpe_ratio test_case) 0.01 ;;
  let passing := ok1 && ok2 && ok3 && ok4 && ok5 in
  ret (passing,
       (if ok1 then [] else ["Total Return Test Failed"])
       ++ (if ok2 then [] else ["CAGR Test Failed"])
       ++ (if ok3 then [] else ["Alpha Test Failed"])
       ++ (if ok4 then [] else ["Beta Test Failed"])
       ++ (if ok5 then [] else ["Sharpe Ratio Test Failed"])
       ++ (if passing then ["All Tests Passed!"] else [])).

(** ** What the test harness decides *)

(** The value that method [m] computes for one group. *)
Definition value_of (sp : StockPerformance) (m : stat_method)
    : list ReturnsRow -> npfloat :=
  match m with
  | TotalReturns => total_return_of
  | Cagrs =>
      fun d => cagr_value (days_in_year sp / IZR (interval sp)) (total_return_of d)
  | Alphas => fun d => cell (capm_value (risk_free_rate sp) d "alpha")
  | Betas => fun d => cell (capm_value (risk_free_rate sp) d "beta")
  | SharpeRatios => fun d => sharpe_value (risk_free_rate sp) (map return_ d)
  end.

(** A computed value [v] is finite and lies within half a unit of the
    [decimals]-th place plus [rtol] times the expected value of [e], taken
    at four decimals. *)
Definition within (decimals : nat) (rtol : R) (v : npfloat) (e : R) : Prop :=
  exists x, v = Real x
    /\ Rabs (x - round_to 4 e) <= / 2 * / 10 ^ decimals + rtol * Rabs (round_to 4 e).

(** ** Sample test cases *)

(** One ticker over two days, returns +100% and -50%, with a benchmark
    that made the same returns. *)
Definition pass_fetched : list DbRow :=
  [ mkDbRow (mkDate 2017 1 3) "X" 100;
    mkDbRow (mkDate 2017 1 4) "X" (-50) ].

Definition pass_bench : list BenchRow :=
  [ mkBenchRow (mkDate 2017 1 3) "SP50" (Some 1);
    mkBenchRow (mkDate 2017 1 4) "SP50" (Some (-0.5)) ].

(** The merged table of that sample. *)
Definition pass_rows : list ReturnsRow :=
  [ mkRow (mkDate 2017 1 3) "X" (100 / 100) "SP50" 1;
    mkRow (mkDate 2017 1 4) "X" (-50 / 100) "SP50" (-0.5) ].

Definition pass_test_case : list TestRow :=
  [ mkTest "X" 0 0 1 0 0.33 ].

(** Three expected tickers, of which the sample data knows two. *)
Definition demo_test_case : list TestRow :=
  [ mkTest "AAPL-US" 0.0198 0.0266 1.33 0.0007 0.14;
    mkTest "GOOG-US" 0.282 0.395 1.14 0.0006 0.12;
    mkTest "MSFT-US" 0.0194 0.0260 1.19 0.0002 0.12 ].

(** * Reductions *)

Section Reductions.

Lemma fold_left_Rplus_acc (l : list R) (a : R) :
  fold_left Rplus l a = a + fold_left Rplus l 0.
Proof.
  revert a. induction l as [|x l IH]; intros a; simpl.
  - lra.
  - rewrite (IH (a + x)), (IH (0 + x)). lra.
Qed.

Lemma fold_left_Rmult_acc (l : list R) (a : R) :
  fold_left Rmult l a = a * fold_left Rmult l 1.
Proof.
  revert a. induction l as [|x l IH]; intros a; simpl.
  - lra.
  - rewrite (IH (a * x)), (IH (1 * x)). lra.
Qed.

Lemma sum_nil : sum [] = 0.
Proof. reflexivity. Qed.

Lemma sum_cons (x : R) (l : list R) : sum (x :: l) = x + sum l.
Proof. unfold sum. simpl. rewrite fold_left_Rplus_acc. lra. Qed.

Lemma prod_nil : prod [] = 1.
Proof. reflexivity. Qed.

Lemma prod_cons (x : R) (l : list R) : prod (x :: l) = x * prod l.
Proof. unfold prod. simpl. rewrite fold_left_Rmult_acc. lra. Qed.

End Reductions.

(** * Group keys *)

Section GroupKeys.

Abbreviation lts := String_as_OT.lt.

Lemma compare_Lt (a b : string) : String.compare a b = Lt <-> lts a b.
Proof. apply String_as_OT.cmp_lt. Qed.

Lemma compare_Gt (a b : string) : String.compare a b = Gt <-> lts b a.
Proof.
  rewrite String.compare_antisym, <- compare_Lt.
  destruct (String.compare b a); simpl; split; congruence.
Qed.

Lemma compare_Eq (a b : string) : String.compare a b = Eq <-> a = b.
Proof. apply String_as_OT.cmp_eq. Qed.

Lemma lts_irrefl (a : string) : ~ lts a a.
Proof. intros H. apply String_as_OT.lt_not_eq in H. now apply H. Qed.

Lemma elem_of_insert_key (x k : string) (ks : list string) :
  x ∈ insert_key k ks <-> x = k \/ x ∈ ks.
Proof.
  induction ks as [|k' ks IH]; simpl.
  - rewrite elem_of_cons. reflexivity.
  - destruct (String.compare k k') eqn:E.
    + apply compare_Eq in E. subst k'. rewrite elem_of_cons. tauto.
    + apply elem_of_cons.
    + rewrite !elem_of_cons, IH. tauto.
Qed.

Lemma insert_key_sorted (k : string) (ks : list string) :
  StronglySorted lts ks -> StronglySorted lts (insert_key k ks).
Proof.
  induction 1 as [|k' ks HS IH HF]; simpl.
  - repeat constructor.
  - destruct (String.compare k k') eqn:E.
    + now constructor.
    + apply compare_Lt in E. constructor; [now constructor|].
      constructor; [exact E|].
      eapply Forall_impl; [exact HF|].
      intros z Hz. simpl in Hz. eapply String_as_OT.lt_trans; eassumption.
    + apply compare_Gt in E. constructor; [exact IH|].
      apply Forall_forall. intros z Hz.
      apply elem_of_insert_key in Hz as [->|Hz]; [exact E|].
      rewrite Forall_forall in HF. now apply HF.
Qed.

Lemma group_keys_sorted (tbl : list ReturnsRow) :
  StronglySorted lts (group_keys tbl).
Proof.
  unfold group_keys. induction (map ticker tbl) as [|k ks IH]; simpl.
  - constructor.
  - now apply insert_key_sorted.
Qed.

Lemma elem_of_group_keys (k : string) (tbl : list ReturnsRow) :
  k ∈ group_keys tbl <-> k ∈ map ticker tbl.
Proof.
  unfold group_keys. induction (map ticker tbl) as [|k' ks IH]; simpl.
  - reflexivity.
  - rewrite elem_of_insert_key, elem_of_cons, IH. reflexivity.
Qed.

Lemma sorted_NoDup (l : list string) : StronglySorted lts l -> NoDup l.
Proof.
  induction 1 as [|a l _ IH HF]; constructor; [|exact IH].
  intros Hin. rewrite Forall_forall in HF.
  exact (lts_irrefl a (HF a Hin)).
Qed.

Lemma group_rows_nonempty (k : string) (tbl : list ReturnsRow) :
  k ∈ map ticker tbl -> group_rows k tbl <> [].
Proof.
  intros Hk Hnil. apply list_elem_of_fmap in Hk as (r & -> & Hr).
  assert (H : r ∈ group_rows (ticker r) tbl).
  { unfold group_rows. apply list_elem_of_filter. auto. }
  rewrite Hnil in H. now apply not_elem_of_nil in H.
Qed.

End GroupKeys.

(** * Running the methods *)

Section Runs.

Lemma bind_Ok {A B} (m : M A) (f : A -> M B) (h h' : heap) (a : A) :
  m h = (Ok a, h') -> bind m f h = f a h'.
Proof. intros E. unfold bind. now rewrite E. Qed.

Lemma bind_Raise {A B} (m : M A) (f : A -> M B) (h h' : heap) (e : exn) :
  m h = (Raise e, h') -> bind m f h = (Raise e, h').
Proof. intros E. unfold bind. now rewrite E. Qed.

Lemma mapM_pure {A B} (f : A -> M B) (g : A -> B) (l : list A) (h : heap) :
  (forall a, f a h = (Ok (g a), h)) -> mapM f l h = (Ok (map g l), h).
Proof.
  intros Hf. induction l as [|a l IH]; simpl; [reflexivity|].
  rewrite (bind_Ok _ _ _ _ _ (Hf a)), (bind_Ok _ _ _ _ _ IH). reflexivity.
Qed.

Lemma groupby_apply_pure {A} (tbl : list ReturnsRow)
    (f : list ReturnsRow -> M A) (g : list ReturnsRow -> A) (h : heap) :
  (forall d, f d h = (Ok (g d), h)) ->
  groupby_apply tbl f h
  = (Ok (map (fun k => (k, g (group_rows k tbl))) (group_keys tbl)), h).
Proof.
  intros Hf. unfold groupby_apply. apply mapM_pure.
  intros k. now rewrite (bind_Ok _ _ _ _ _ (Hf _)).
Qed.

Lemma load_run (h : heap) (l : loc) (o : obj) :
  h !! l = Some o -> load l h = (Ok o, h).
Proof. intros E. unfold load. now rewrite E. Qed.

Lemma get_self_run (h : heap) (self : loc) (sp : StockPerformance) :
  h !! self = Some (OSelf sp) -> get_self self h = (Ok sp, h).
Proof.
  intros E. unfold get_self. now rewrite (bind_Ok _ _ _ _ _ (load_run _ _ _ E)).
Qed.

Lemma get_table_run (h : heap) (l : loc) (tbl : list ReturnsRow) :
  h !! l = Some (OTable tbl) -> get_table l h = (Ok tbl, h).
Proof.
  intros E. unfold get_table. now rewrite (bind_Ok _ _ _ _ _ (load_run _ _ _ E)).
Qed.

Lemma get_frame_run (h : heap) (l : loc) idx cols :
  h !! l = Some (OFrame idx cols) -> get_frame l h = (Ok (idx, cols), h).
Proof.
  intros E. unfold get_frame. now rewrite (bind_Ok _ _ _ _ _ (load_run _ _ _ E)).
Qed.

Lemma lookup_snoc (h : heap) (o : obj) : (h ++ [o]) !! length h = Some o.
Proof. now apply list_lookup_middle. Qed.

Lemma insert_snoc (h : heap) (o o' : obj) : <[length h := o']> (h ++ [o]) = h ++ [o'].
Proof.
  rewrite insert_app_r_alt by lia. now rewrite Nat.sub_diag.
Qed.

(** [pd.DataFrame(series)] followed by the renaming of its only column. *)
Lemma series_frame_run (name col : string) (s : list (string * npfloat)) (h : heap) :
  (df <- DataFrame_of_series name s ;; set_columns df [col] ;;; ret df) h
  = (Ok (length h), h ++ [OFrame (map fst s) [(col, map snd s)]]).
Proof.
  unfold DataFrame_of_series.
  erewrite bind_Ok by reflexivity.
  unfold set_columns.
  erewrite bind_Ok.
  2:{ erewrite bind_Ok by (apply get_frame_run, lookup_snoc). simpl.
      unfold store. rewrite insert_snoc. reflexivity. }
  reflexivity.
Qed.

Lemma map_fst_keyed {A} (f : string -> A) (l : list string) :
  map fst (map (fun k => (k, f k)) l) = l.
Proof. rewrite map_map. simpl. apply map_id. Qed.

Lemma map_snd_keyed {A} (f : string -> A) (l : list string) :
  map snd (map (fun k => (k, f k)) l) = map f l.
Proof. now rewrite map_map. Qed.

Lemma combine_keyed {A} (f : string -> A) (l : list string) :
  combine l (map f l) = map (fun k => (k, f k)) l.
Proof. induction l as [|k l IH]; simpl; [reflexivity|now rewrite IH]. Qed.

Lemma capm_regression_run (h : heap) (self : loc) (sp : StockPerformance)
    (data : list ReturnsRow) (port bench stat : string) :
  h !! self = Some (OSelf sp) ->
  capm_regression self data port bench stat h
  = (Ok (capm_value (risk_free_rate sp) data stat), h).
Proof.
  intros E. unfold capm_regression, capm_value.
  rewrite (bind_Ok _ _ _ _ _ (get_self_run _ _ _ E)).
  destruct (String.eqb stat "beta"); [reflexivity|].
  destruct (String.eqb stat "alpha"); reflexivity.
Qed.

Lemma sharpe_lambda_run (h : heap) (self : loc) (sp : StockPerformance) (x : list R) :
  h !! self = Some (OSelf sp) ->
  sharpe_lambda self x h = (Ok (sharpe_value (risk_free_rate sp) x), h).
Proof.
  intros E. unfold sharpe_lambda.
  now rewrite (bind_Ok _ _ _ _ _ (get_self_run _ _ _ E)).
Qed.

(** Each of the four direct methods appends one DataFrame to the heap and
    returns its location. *)
Lemma calc_total_returns_run (h : heap) (self : loc) sp tbl :
  analyzer_at h self sp tbl ->
  calc_total_returns self h
  = (Ok (length h),
     h ++ [OFrame (group_keys tbl)
             [("total_return", map snd (by_ticker total_return_of tbl))]]).
Proof.
  intros [Hs Ht]. unfold calc_total_returns.
  rewrite (bind_Ok _ _ _ _ _ (get_self_run _ _ _ Hs)).
  rewrite (bind_Ok _ _ _ _ _ (get_table_run _ _ _ Ht)).
  erewrite bind_Ok.
  2:{ apply groupby_apply_pure with (g := total_return_of). reflexivity. }
  rewrite series_frame_run. unfold by_ticker.
  now rewrite map_fst_keyed.
Qed.

Lemma calc_capm_run (h : heap) (self : loc) sp tbl (stat col : string) :
  analyzer_at h self sp tbl ->
  tbl <> [] ->
  (sp' <- get_self self ;;
   tbl' <- get_table (daily_returns sp') ;;
   s <- groupby_apply tbl'
          (fun g => capm_regression self g "return" "bench_return" stat) ;;
   df <- DataFrame_of_applied tbl' (map (fun kv => (fst kv, cell (snd kv))) s) ;;
   set_columns df [col] ;;;
   ret df) h
  = (Ok (length h),
     h ++ [OFrame (group_keys tbl)
             [(col, map snd (by_ticker
                      (fun d => cell (capm_value (risk_free_rate sp) d stat)) tbl))]]).
Proof.
  intros [Hs Ht] Hne.
  rewrite (bind_Ok _ _ _ _ _ (get_self_run _ _ _ Hs)).
  rewrite (bind_Ok _ _ _ _ _ (get_table_run _ _ _ Ht)).
  erewrite bind_Ok.
  2:{ apply groupby_apply_pure
        with (g := fun d => capm_value (risk_free_rate sp) d stat).
      intros d. now apply capm_regression_run. }
  destruct tbl as [|r0 tbl0]; [contradiction|].
  unfold DataFrame_of_applied.
  rewrite series_frame_run. unfold by_ticker.
  rewrite !map_map. simpl. now rewrite map_id.
Qed.

(** On a table without rows the result of [apply] keeps the five columns
    of the table, and giving it one column name is a [ValueError]. *)
Lemma calc_capm_raise (h : heap) (self : loc) sp (stat col : string) :
  analyzer_at h self sp [] ->
  (sp' <- get_self self ;;
   tbl' <- get_table (daily_returns sp') ;;
   s <- groupby_apply tbl'
          (fun g => capm_regression self g "return" "bench_return" stat) ;;
   df <- DataFrame_of_applied tbl' (map (fun kv => (fst kv, cell (snd kv))) s) ;;
   set_columns df [col] ;;;
   ret df) h
  = (Raise ValueError,
     h ++ [OFrame [] (map (fun c => (c, [])) table_columns)]).
Proof.
  intros [Hs Ht].
  rewrite (bind_Ok _ _ _ _ _ (get_self_run _ _ _ Hs)).
  rewrite (bind_Ok _ _ _ _ _ (get_table_run _ _ _ Ht)).
  erewrite bind_Ok.
  2:{ apply groupby_apply_pure
        with (g := fun d => capm_value (risk_free_rate sp) d stat).
      intros d. now apply capm_regression_run. }
  unfold DataFrame_of_applied.
  erewrite bind_Ok by reflexivity.
  erewrite bind_Raise; [reflexivity|].
  unfold set_columns.
  erewrite bind_Ok by (apply get_frame_run, lookup_snoc).
  reflexivity.
Qed.

Lemma calc_alphas_run (h : heap) (self : loc) sp tbl :
  analyzer_at h self sp tbl ->
  tbl <> [] ->
  calc_alphas self h
  = (Ok (length h),
     h ++ [OFrame (group_keys tbl)
             [("capm_alpha", map snd (by_ticker
                (fun d => cell (capm_value (risk_free_rate sp) d "alpha")) tbl))]]).
Proof. apply calc_capm_run. Qed.

Lemma calc_betas_run (h : heap) (self : loc) sp tbl :
  analyzer_at h self sp tbl ->
  tbl <> [] ->
  calc_betas self h
  = (Ok (length h),
     h ++ [OFrame (group_keys tbl)
             [("capm_beta", map snd (by_ticker
                (fun d => cell (capm_value (risk_free_rate sp) d "beta")) tbl))]]).
Proof. apply calc_capm_run. Qed.

Lemma calc_alphas_raise (h : heap) (self : loc) sp :
  analyzer_at h self sp [] ->
  calc_alphas self h
  = (Raise ValueError, h ++ [OFrame [] (map (fun c => (c, [])) table_columns)]).
Proof. apply calc_capm_raise. Qed.

Lemma calc_betas_raise (h : heap) (self : loc) sp :
  analyzer_at h self sp [] ->
  calc_betas self h
  = (Raise ValueError, h ++ [OFrame [] (map (fun c => (c, [])) table_columns)]).
Proof. apply calc_capm_raise. Qed.

Lemma calc_sharpe_ratios_run (h : heap) (self : loc) sp tbl :
  analyzer_at h self sp tbl ->
  calc_sharpe_ratios self h
  = (Ok (length h),
     h ++ [OFrame (group_keys tbl)
             [("sharpe_ratio", map snd (by_ticker
                (fun d => sharpe_value (risk_free_rate sp) (map return_ d)) tbl))]]).
Proof.
  intros [Hs Ht]. unfold calc_sharpe_ratios.
  rewrite (bind_Ok _ _ _ _ _ (get_self_run _ _ _ Hs)).
  rewrite (bind_Ok _ _ _ _ _ (get_table_run _ _ _ Ht)).
  erewrite bind_Ok.
  2:{ apply groupby_apply_pure
        with (g := fun d => sharpe_value (risk_free_rate sp) (map return_ d)).
      intros d. now apply sharpe_lambda_run. }
  rewrite series_frame_run. unfold by_ticker.
  now rewrite map_fst_keyed.
Qed.

Lemma py_truediv_run (a : R) (b : Z) (h : heap) :
  b <> 0%Z -> py_truediv a b h = (Ok (a / IZR b), h).
Proof.
  intros Hb. unfold py_truediv.
  destruct (Z.eqb_spec b 0); [contradiction|reflexivity].
Qed.

Lemma calc_cagrs_run (h : heap) (self : loc) sp tbl :
  analyzer_at h self sp tbl ->
  interval sp <> 0%Z ->
  let trs := map snd (by_ticker total_return_of tbl) in
  let cagrs := map (cagr_value (days_in_year sp / IZR (interval sp))) trs in
  calc_cagrs self h
  = (Ok (S (length h)),
     (h ++ [OFrame (group_keys tbl) [("total_return", trs); ("cagr", cagrs)]])
       ++ [OFrame (group_keys tbl) [("cagr", cagrs)]]).
Proof.
  intros HA Hi trs cagrs. unfold calc_cagrs.
  rewrite (bind_Ok _ _ _ _ _ (calc_total_returns_run _ _ _ _ HA)).
  destruct HA as [Hs Ht].
  unfold getitem.
  erewrite bind_Ok.
  2:{ erewrite bind_Ok by (apply get_frame_run, lookup_snoc). reflexivity. }
  erewrite bind_Ok by (apply get_self_run, lookup_app_l_Some, Hs).
  rewrite (bind_Ok _ _ _ _ _ (py_truediv_run _ _ _ Hi)).
  unfold setitem.
  erewrite bind_Ok.
  2:{ erewrite bind_Ok by (apply get_frame_run, lookup_snoc). simpl.
      unfold store. rewrite insert_snoc. reflexivity. }
  unfold getitems.
  erewrite bind_Ok by (apply get_frame_run, lookup_snoc). simpl.
  unfold alloc. rewrite length_app. simpl.
  replace (length h + 1)%nat with (S (length h)) by lia.
  reflexivity.
Qed.

Lemma calc_cagrs_raise (h : heap) (self : loc) sp tbl :
  analyzer_at h self sp tbl ->
  interval sp = 0%Z ->
  calc_cagrs self h
  = (Raise ZeroDivisionError,
     h ++ [OFrame (group_keys tbl)
             [("total_return", map snd (by_ticker total_return_of tbl))]]).
Proof.
  intros HA Hi. unfold calc_cagrs.
  rewrite (bind_Ok _ _ _ _ _ (calc_total_returns_run _ _ _ _ HA)).
  destruct HA as [Hs Ht].
  unfold getitem.
  erewrite bind_Ok.
  2:{ erewrite bind_Ok by (apply get_frame_run, lookup_snoc). reflexivity. }
  erewrite bind_Ok by (apply get_self_run, lookup_app_l_Some, Hs).
  erewrite bind_Raise; [reflexivity|].
  unfold py_truediv. now rewrite Hi.
Qed.

(** What a caller reads from each method's result. *)
Lemma read_snoc (h : heap) (col : string)
    (g : list ReturnsRow -> npfloat) (tbl : list ReturnsRow) :
  read_stat (h ++ [OFrame (group_keys tbl) [(col, map snd (by_ticker g tbl))]])
            (length h) col
  = Some (by_ticker g tbl).
Proof.
  unfold read_stat. rewrite lookup_snoc. simpl. rewrite String.eqb_refl.
  unfold by_ticker. now rewrite map_snd_keyed, combine_keyed.
Qed.

Lemma run_total_returns (h : heap) (self : loc) sp tbl :
  analyzer_at h self sp tbl ->
  run_stat (calc_total_returns self) "total_return" h
  = Ok (by_ticker total_return_of tbl).
Proof.
  intros HA. unfold run_stat.
  rewrite (calc_total_returns_run _ _ _ _ HA).
  now rewrite (read_snoc h).
Qed.

Lemma run_alphas (h : heap) (self : loc) sp tbl :
  analyzer_at h self sp tbl ->
  tbl <> [] ->
  run_stat (calc_alphas self) "capm_alpha" h
  = Ok (by_ticker (fun d => cell (capm_value (risk_free_rate sp) d "alpha")) tbl).
Proof.
  intros HA Hne. unfold run_stat.
  rewrite (calc_alphas_run _ _ _ _ HA Hne).
  now rewrite (read_snoc h).
Qed.

Lemma run_betas (h : heap) (self : loc) sp tbl :
  analyzer_at h self sp tbl ->
  tbl <> [] ->
  run_stat (calc_betas self) "capm_beta" h
  = Ok (by_ticker (fun d => cell (capm_value (risk_free_rate sp) d "beta")) tbl).
Proof.
  intros HA Hne. unfold run_stat.
  rewrite (calc_betas_run _ _ _ _ HA Hne).
  now rewrite (read_snoc h).
Qed.

Lemma run_alphas_raise (h : heap) (self : loc) sp (col : string) :
  analyzer_at h self sp [] ->
  run_stat (calc_alphas self) col h = Raise ValueError.
Proof.
  intros HA. unfold run_stat. now rewrite (calc_alphas_raise _ _ _ HA).
Qed.

Lemma run_betas_raise (h : heap) (self : loc) sp (col : string) :
  analyzer_at h self sp [] ->
  run_stat (calc_betas self) col h = Raise ValueError.
Proof.
  intros HA. unfold run_stat. now rewrite (calc_betas_raise _ _ _ HA).
Qed.

(** A table that has a row of ticker [t] is not empty. *)
Lemma ticker_nonempty (t : string) (tbl : list ReturnsRow) :
  t ∈ map ticker tbl -> tbl <> [].
Proof. intros Ht ->. simpl in Ht. now apply elem_of_nil in Ht. Qed.

Lemma run_sharpe_ratios (h : heap) (self : loc) sp tbl :
  analyzer_at h self sp tbl ->
  run_stat (calc_sharpe_ratios self) "sharpe_ratio" h
  = Ok (by_ticker (fun d => sharpe_value (risk_free_rate sp) (map return_ d)) tbl).
Proof.
  intros HA. unfold run_stat.
  rewrite (calc_sharpe_ratios_run _ _ _ _ HA).
  now rewrite (read_snoc h).
Qed.

Lemma run_cagrs (h : heap) (self : loc) sp tbl :
  analyzer_at h self sp tbl ->
  interval sp <> 0%Z ->
  run_stat (calc_cagrs self) "cagr" h
  = Ok (by_ticker
          (fun d => cagr_value (days_in_year sp / IZR (interval sp))
                               (total_return_of d)) tbl).
Proof.
  intros HA Hi. unfold run_stat.
  rewrite (calc_cagrs_run _ _ _ _ HA Hi).
  unfold read_stat.
  replace (S (length h))
    with (length (h ++ [OFrame (group_keys tbl)
            [("total_return", map snd (by_ticker total_return_of tbl));
             ("cagr", map (cagr_value (days_in_year sp / IZR (interval sp)))
                          (map snd (by_ticker total_return_of tbl)))]]))
    by (rewrite length_app; simpl; lia).
  rewrite lookup_snoc. simpl.
  unfold by_ticker. rewrite !map_map. simpl.
  now rewrite combine_keyed.
Qed.

Lemma run_cagrs_raise (h : heap) (self : loc) sp tbl :
  analyzer_at h self sp tbl ->
  interval sp = 0%Z ->
  run_stat (calc_cagrs self) "cagr" h = Raise ZeroDivisionError.
Proof.
  intros HA Hi. unfold run_stat.
  now rewrite (calc_cagrs_raise _ _ _ _ HA Hi).
Qed.

(** Looking a ticker up in a result. *)
Lemma assoc_keyed {A} (f : string -> A) (t : string) (l : list string) :
  assoc t (map (fun k => (k, f k)) l) = if decide (t ∈ l) then Some (f t) else None.
Proof.
  induction l as [|k l IH]; simpl.
  - destruct (decide (t ∈ [])) as [H|_]; [now apply not_elem_of_nil in H|reflexivity].
  - destruct (String.eqb_spec t k) as [->|Hne].
    + destruct (decide (k ∈ k :: l)) as [_|H]; [reflexivity|].
      exfalso. apply H. left.
    + rewrite IH. destruct (decide (t ∈ l)) as [Hin|Hin];
        destruct (decide (t ∈ k :: l)) as [Hin'|Hin']; try reflexivity.
      * exfalso. apply Hin'. now right.
      * exfalso. apply elem_of_cons in Hin' as [?|?]; contradiction.
Qed.

Lemma assoc_by_ticker_Some (g : list ReturnsRow -> npfloat) (t : string) tbl :
  t ∈ map ticker tbl -> assoc t (by_ticker g tbl) = Some (g (group_rows t tbl)).
Proof.
  intros Ht. unfold by_ticker.
  rewrite (assoc_keyed (fun k => g (group_rows k tbl))).
  destruct (decide (t ∈ group_keys tbl)) as [_|H]; [reflexivity|].
  exfalso. apply H. now apply elem_of_group_keys.
Qed.

Lemma assoc_by_ticker_None (g : list ReturnsRow -> npfloat) (t : string) tbl :
  t ∉ map ticker tbl -> assoc t (by_ticker g tbl) = None.
Proof.
  intros Ht. unfold by_ticker.
  rewrite (assoc_keyed (fun k => g (group_rows k tbl))).
  destruct (decide (t ∈ group_keys tbl)) as [H|_]; [|reflexivity].
  exfalso. apply Ht. now apply elem_of_group_keys.
Qed.

Lemma map_fst_by_ticker (g : list ReturnsRow -> npfloat) tbl :
  map fst (by_ticker g tbl) = group_keys tbl.
Proof. unfold by_ticker. apply map_fst_keyed. Qed.

End Runs.

(** * Least squares *)

Section LeastSquares.

Context {A : Type}.
Implicit Types (f g : A -> R) (l : list A).

Lemma sum_map_cons f (a : A) l : sum (map f (a :: l)) = f a + sum (map f l).
Proof. simpl. apply sum_cons. Qed.

Lemma zip_with_map f g (op : R -> R -> R) l :
  zip_with op (map f l) (map g l) = map (fun a => op (f a) (g a)) l.
Proof. induction l as [|a l IH]; simpl; [reflexivity|now rewrite IH]. Qed.

Lemma sum_map_nonneg f l : (forall a, 0 <= f a) -> 0 <= sum (map f l).
Proof.
  intros Hf. induction l as [|a l IH].
  - simpl. rewrite sum_nil. lra.
  - rewrite sum_map_cons. specialize (Hf a). lra.
Qed.

Lemma sum_map_zero f l :
  (forall a, 0 <= f a) -> sum (map f l) = 0 -> forall a, a ∈ l -> f a = 0.
Proof.
  intros Hf. induction l as [|a l IH]; intros Hs x Hx.
  - now apply not_elem_of_nil in Hx.
  - rewrite sum_map_cons in Hs.
    pose proof (Hf a). pose proof (sum_map_nonneg f l Hf).
    apply elem_of_cons in Hx as [->|Hx]; [lra|].
    apply IH; [lra|exact Hx].
Qed.

Lemma sum_centered f g (m m' : R) l :
  sum (map (fun a => (f a - m) * (g a - m')) l)
  = sum (map (fun a => f a * g a) l) - m' * sum (map f l) - m * sum (map g l)
    + m * m' * INR (length l).
Proof.
  induction l as [|a l IH].
  - simpl. rewrite !sum_nil. lra.
  - rewrite !sum_map_cons, IH. cbn [length]. rewrite S_INR. lra.
Qed.

Lemma sum_residuals f g (a b : R) l :
  sum (map (fun r => (g r - (a + b * f r)) * (g r - (a + b * f r))) l)
  = sum (map (fun r => g r * g r) l) - 2 * a * sum (map g l)
    - 2 * b * sum (map (fun r => f r * g r) l)
    + a * a * INR (length l) + 2 * a * b * sum (map f l)
    + b * b * sum (map (fun r => f r * f r) l).
Proof.
  induction l as [|r l IH].
  - simpl. rewrite !sum_nil. lra.
  - rewrite !sum_map_cons, IH. cbn [length]. rewrite S_INR. lra.
Qed.

Lemma sum_affine_square f (c d : R) l :
  sum (map (fun r => (c + d * f r) * (c + d * f r)) l)
  = c * c * INR (length l) + 2 * c * d * sum (map f l)
    + d * d * sum (map (fun r => f r * f r) l).
Proof.
  induction l as [|r l IH].
  - simpl. rewrite !sum_nil. lra.
  - rewrite !sum_map_cons, IH. cbn [length]. rewrite S_INR. lra.
Qed.

(** The coefficients of [fit] on two columns of the same table, in terms
    of the raw sums. *)
Lemma fit_coef f g l :
  l <> [] ->
  let n := INR (length l) in
  let cxx := sum (map (fun a => f a * f a) l) - sum (map f l) * sum (map f l) / n in
  let cxy := sum (map (fun a => f a * g a) l) - sum (map f l) * sum (map g l) / n in
  coef_ (fit (map f l) (map g l)) = (if Req_dec_T cxx 0 then 0 else cxy / cxx)
  /\ intercept_ (fit (map f l) (map g l))
     = sum (map g l) / n - sum (map f l) / n * coef_ (fit (map f l) (map g l))
  /\ np_var (map f l) = cxx / n.
Proof.
  intros Hl n cxx cxy.
  assert (Hn : n <> 0).
  { unfold n. destruct l; [contradiction|]. cbn [length]. rewrite S_INR.
    pose proof (pos_INR (length l)). lra. }
  assert (Exx : sum (map (fun a => (f a - sum (map f l) / n) * (f a - sum (map f l) / n)) l) = cxx).
  { rewrite sum_centered. unfold cxx. fold n. field. exact Hn. }
  assert (Exy : sum (map (fun a => (f a - sum (map f l) / n) * (g a - sum (map g l) / n)) l) = cxy).
  { rewrite sum_centered. unfold cxy. fold n. field. exact Hn. }
  unfold fit, lstsq, np_var, np_mean. cbn [coef_ intercept_].
  rewrite !length_map. fold n.
  rewrite !map_map, !zip_with_map, Exx, Exy.
  repeat split; reflexivity.
Qed.

Lemma INR_length_nonzero l : l <> [] -> INR (length l) <> 0.
Proof.
  destruct l as [|a l]; [contradiction|]. intros _. cbn [length].
  rewrite S_INR. pose proof (pos_INR (length l)). lra.
Qed.

(** The fitted line satisfies the two normal equations. *)
Lemma fit_normal_equations f g l :
  l <> [] ->
  np_var (map f l) <> 0 ->
  let a := intercept_ (fit (map f l) (map g l)) in
  let b := coef_ (fit (map f l) (map g l)) in
  INR (length l) * a + b * sum (map f l) = sum (map g l)
  /\ a * sum (map f l) + b * sum (map (fun r => f r * f r) l)
     = sum (map (fun r => f r * g r) l).
Proof.
  intros Hl Hv a b.
  destruct (fit_coef f g l Hl) as (Hc & Hi & Hvar).
  pose proof (INR_length_nonzero l Hl) as Hn.
  fold b in Hc, Hi. fold a in Hi.
  set (n := INR (length l)) in *.
  set (sx := sum (map f l)) in *. set (sy := sum (map g l)) in *.
  set (sxx := sum (map (fun r => f r * f r) l)) in *.
  set (sxy := sum (map (fun r => f r * g r) l)) in *.
  assert (Hcxx : sxx - sx * sx / n <> 0).
  { intros E. apply Hv. rewrite Hvar, E. unfold Rdiv. ring. }
  destruct (Req_dec_T (sxx - sx * sx / n) 0) as [E|_]; [contradiction|].
  assert (Hden : sxx * n - sx * sx <> 0).
  { intros E. apply Hcxx.
    replace (sxx - sx * sx / n) with ((sxx * n - sx * sx) / n) by (field; exact Hn).
    rewrite E. unfold Rdiv. ring. }
  rewrite Hi, Hc. split; field; split; assumption.
Qed.

(** ... and therefore minimises the sum of squared residuals. *)
Lemma fit_minimises f g l :
  l <> [] ->
  np_var (map f l) <> 0 ->
  forall a b : R,
    sum (map (fun r =>
           (g r - (intercept_ (fit (map f l) (map g l))
                   + coef_ (fit (map f l) (map g l)) * f r))
           * (g r - (intercept_ (fit (map f l) (map g l))
                     + coef_ (fit (map f l) (map g l)) * f r))) l)
    <= sum (map (fun r => (g r - (a + b * f r)) * (g r - (a + b * f r))) l).
Proof.
  intros Hl Hv a b.
  destruct (fit_normal_equations f g l Hl Hv) as [N1 N2].
  set (a0 := intercept_ (fit (map f l) (map g l))) in *.
  set (b0 := coef_ (fit (map f l) (map g l))) in *.
  pose proof (sum_map_nonneg
    (fun r => ((a - a0) + (b - b0) * f r) * ((a - a0) + (b - b0) * f r)) l) as Hq.
  rewrite sum_affine_square in Hq.
  rewrite !sum_residuals.
  rewrite <- N1, <- N2.
  assert (Hq' : 0 <= (a - a0) * (a - a0) * INR (length l)
                     + 2 * (a - a0) * (b - b0) * sum (map f l)
                     + (b - b0) * (b - b0) * sum (map (fun r => f r * f r) l)).
  { apply Hq. intros r. apply Rle_0_sqr. }
  lra.
Qed.

(** On non-degenerate data the fit agrees with the closed form of the
    normal equations. *)
Lemma fit_ols_fit f g l :
  l <> [] ->
  np_var (map f l) <> 0 ->
  alpha (ols_fit (map f l) (map g l)) = intercept_ (fit (map f l) (map g l))
  /\ beta (ols_fit (map f l) (map g l)) = coef_ (fit (map f l) (map g l)).
Proof.
  intros Hl Hv.
  destruct (fit_coef f g l Hl) as (Hc & Hi & Hvar).
  pose proof (INR_length_nonzero l Hl) as Hn.
  unfold ols_fit. cbn [alpha beta].
  rewrite !length_map, !zip_with_map.
  rewrite Hi, Hc.
  set (n := INR (length l)) in *.
  set (sx := sum (map f l)) in *. set (sy := sum (map g l)) in *.
  set (sxx := sum (map (fun r => f r * f r) l)) in *.
  set (sxy := sum (map (fun r => f r * g r) l)) in *.
  assert (Hcxx : sxx - sx * sx / n <> 0).
  { intros E. apply Hv. rewrite Hvar, E. unfold Rdiv. ring. }
  destruct (Req_dec_T (sxx - sx * sx / n) 0) as [E|_]; [contradiction|].
  assert (Hden : sxx * n - sx * sx <> 0).
  { intros E. apply Hcxx.
    replace (sxx - sx * sx / n) with ((sxx * n - sx * sx) / n) by (field; exact Hn).
    rewrite E. unfold Rdiv. ring. }
  assert (Hden' : n * sxx - sx * sx <> 0) by (intros E; apply Hden; lra).
  split; field; repeat split; assumption.
Qed.

(** Degenerate data: the centred regressor is null, the slope is [0] and
    the intercept is the mean of [y]. *)
Lemma fit_degenerate f g l :
  l <> [] ->
  np_var (map f l) = 0 ->
  coef_ (fit (map f l) (map g l)) = 0
  /\ intercept_ (fit (map f l) (map g l)) = np_mean (map g l).
Proof.
  intros Hl Hv.
  destruct (fit_coef f g l Hl) as (Hc & Hi & Hvar).
  pose proof (INR_length_nonzero l Hl) as Hn.
  assert (Hcxx : sum (map (fun a => f a * f a) l)
                 - sum (map f l) * sum (map f l) / INR (length l) = 0).
  { rewrite Hv in Hvar. symmetry in Hvar.
    apply (Rmult_eq_compat_r (INR (length l))) in Hvar.
    unfold Rdiv in Hvar at 1. rewrite Rmult_assoc, Rinv_l, Rmult_1_r, Rmult_0_l in Hvar by exact Hn.
    exact Hvar. }
  destruct (Req_dec_T _ 0) as [_|N]; [|contradiction].
  split; [exact Hc|].
  rewrite Hi, Hc. unfold np_mean. rewrite length_map. lra.
Qed.

Lemma np_var_single (x : R) : np_var [x] = 0.
Proof.
  unfold np_var, np_mean. simpl. rewrite !sum_cons, !sum_nil. field.
Qed.

End LeastSquares.

(** * Construction *)

Section Construction.

Lemma strptime_run (d : Date) (h : heap) :
  valid_date d = true -> strptime d h = (Ok d, h).
Proof. intros E. unfold strptime. now rewrite E. Qed.

Lemma strptime_raise (d : Date) (h : heap) :
  valid_date d = false -> strptime d h = (Raise ValueError, h).
Proof. intros E. unfold strptime. now rewrite E. Qed.

Lemma init_run (h0 : heap) fetched tks (s e : Date) bench :
  valid_date s = true ->
  valid_date e = true ->
  __init__ fetched tks s e bench h0
  = (Ok (S (length h0)),
     h0 ++ [OTable (dropna (merge_left
                      (map (fun r => mkDbRow (p_date r) (ticker_region r)
                                             (one_day_pct r / 100)) fetched)
                      bench));
            OSelf {| days_in_year := 365.25;
                     risk_free_rate := 0.00007;
                     tickers := tks;
                     start_date := s;
                     end_date := e;
                     interval := (ymd2ord e - ymd2ord s + 1)%Z;
                     daily_returns := length h0 |}]).
Proof.
  intros Hs He. unfold __init__.
  erewrite bind_Ok by reflexivity.
  rewrite (bind_Ok _ _ _ _ _ (strptime_run _ _ Hs)).
  rewrite (bind_Ok _ _ _ _ _ (strptime_run _ _ He)).
  unfold alloc. rewrite length_app. simpl.
  replace (length h0 + 1)%nat with (S (length h0)) by lia.
  now rewrite <- app_assoc.
Qed.

Lemma analyzer_at_snoc2 (h0 : heap) sp tbl :
  daily_returns sp = length h0 ->
  analyzer_at (h0 ++ [OTable tbl; OSelf sp]) (S (length h0)) sp tbl.
Proof.
  intros E. split.
  - rewrite lookup_app_r by lia.
    replace (S (length h0) - length h0)%nat with 1%nat by lia. reflexivity.
  - rewrite E, lookup_app_r by lia. now rewrite Nat.sub_diag.
Qed.

Lemma analyzer_at_app (h ext : heap) self sp tbl :
  analyzer_at h self sp tbl -> analyzer_at (h ++ ext) self sp tbl.
Proof. intros [Hs Ht]. split; now apply lookup_app_l_Some. Qed.

Lemma assoc_by_ticker_inv (g : list ReturnsRow -> npfloat) (t : string) tbl v :
  assoc t (by_ticker g tbl) = Some v ->
  t ∈ map ticker tbl /\ v = g (group_rows t tbl).
Proof.
  intros E. destruct (decide (t ∈ map ticker tbl)) as [Hin|Hin].
  - rewrite (assoc_by_ticker_Some g t tbl Hin) in E. split; congruence.
  - rewrite (assoc_by_ticker_None g t tbl Hin) in E. discriminate.
Qed.

End Construction.

(** * Facts about the sample data *)

Lemma demo_analyzer : analyzer_at demo_heap 1%nat demo_sp demo_tbl.
Proof. split; reflexivity. Qed.

(** * Total returns and growth rates *)

(** C1 (as the code behaves): [calc_total_returns] maps every ticker of
    the table to the compounded return of exactly that ticker's rows, the
    product of [1 + r] over the rows, taken in table order, minus one; a
    ticker without rows has no entry. *)
Theorem calc_total_returns_compounds :
  forall (h : heap) (self : loc) (sp : StockPerformance) (tbl : list ReturnsRow),
    analyzer_at h self sp tbl ->
    exists res,
      run_stat (calc_total_returns self) "total_return" h = Ok res
      /\ (forall t, t ∈ map ticker tbl ->
            assoc t res
            = Some (Real (prod (map (fun r => 1 + return_ r)
                                    (filter (fun r => ticker r = t) tbl)) - 1)))
      /\ (forall t, t ∉ map ticker tbl -> assoc t res = None).
Proof.
  intros h self sp tbl HA.
  exists (by_ticker total_return_of tbl). repeat split.
  - now apply (run_total_returns h self sp).
  - intros t Ht. rewrite (assoc_by_ticker_Some _ _ _ Ht).
    unfold total_return_of, total_return, group_rows. now rewrite map_map.
  - intros t Ht. now apply assoc_by_ticker_None.
Qed.

Lemma calc_total_returns_compounds_witness :
  analyzer_at demo_heap 1%nat demo_sp demo_tbl
  /\ exists res,
      run_stat (calc_total_returns 1%nat) "total_return" demo_heap = Ok res
      /\ (forall t, t ∈ map ticker demo_tbl ->
            assoc t res
            = Some (Real (prod (map (fun r => 1 + return_ r)
                                    (filter (fun r => ticker r = t) demo_tbl)) - 1)))
      /\ (forall t, t ∉ map ticker demo_tbl -> assoc t res = None).
Proof.
  split.
  - split; reflexivity.
  - apply (calc_total_returns_compounds demo_heap 1%nat demo_sp demo_tbl).
    split; reflexivity.
Defined.

(** C1, counterexample: the value is not invariant under a permutation of
    the rows.  In binary64 the product is rounded after every factor: for
    the ticker X the returns 1%, -2%, 3% (the percentages divided by 100,
    as [__init__] does) compound to a larger number than the same returns
    met in the order 1%, 3%, -2%. *)
Lemma total_return_depends_on_row_order :
  let pct := fun p : float => PrimFloat.div p 100%float in
  let tbl := [("X", pct 1%float); ("Y", pct 2%float);
              ("X", pct (-2)%float); ("X", pct 3%float)] in
  let tbl' := [("X", pct 1%float); ("Y", pct 2%float);
               ("X", pct 3%float); ("X", pct (-2)%float)] in
  Permutation tbl tbl'
  /\ exists v v',
      assoc "X" (total_returns64 tbl) = Some v
      /\ assoc "X" (total_returns64 tbl') = Some v'
      /\ PrimFloat.ltb v' v = true
      /\ v <> v'.
Proof.
  intros pct tbl tbl'.
  split.
  - unfold tbl, tbl'. do 2 apply perm_skip. apply perm_swap.
  - exists (total_return64 [pct 1%float; pct (-2)%float; pct 3%float]),
      (total_return64 [pct 1%float; pct 3%float; pct (-2)%float]).
    split; [reflexivity|]. split; [reflexivity|].
    split; [vm_compute; reflexivity|].
    intros E.
    assert (Hne : PrimFloat.eqb
                    (total_return64 [pct 1%float; pct (-2)%float; pct 3%float])
                    (total_return64 [pct 1%float; pct 3%float; pct (-2)%float])
                  = false)
      by (vm_compute; reflexivity).
    rewrite E in Hne. vm_compute in Hne. discriminate.
Qed.

(** The example of the specification: returns 0.01, -0.02, 0.03 compound
    to 1.01 * 0.98 * 1.03 - 1. *)
Example total_return_example :
  run_stat (calc_total_returns 1%nat) "total_return" demo_heap
  = Ok [("AAPL-US", Real (total_return [0.02; 0.01; -0.01]));
        ("MSFT-US", Real (total_return [0.01; -0.02; 0.03]))]
  /\ total_return [0.01; -0.02; 0.03] = 1.01 * 0.98 * 1.03 - 1.
Proof.
  split.
  - rewrite (run_total_returns _ _ _ _ demo_analyzer). reflexivity.
  - unfold total_return. simpl. rewrite !prod_cons, prod_nil. lra.
Qed.

Lemma np_pow_pos (b e : R) : 0 < b -> e <> 0 -> np_pow (Real b) e = Real (Rpower b e).
Proof.
  intros Hb He. unfold np_pow.
  destruct (Req_dec_T e 0) as [?|_]; [contradiction|].
  destruct (Rlt_dec 0 b) as [_|?]; [reflexivity|contradiction].
Qed.

Lemma exponent_nonzero (d : R) (n : Z) : 0 < d -> n <> 0%Z -> d / IZR n <> 0.
Proof.
  intros Hd Hn E.
  assert (Hz : IZR n <> 0) by (apply not_0_IZR; exact Hn).
  apply (Rmult_eq_compat_r (IZR n)) in E.
  unfold Rdiv in E. rewrite Rmult_assoc, Rinv_l, Rmult_1_r, Rmult_0_l in E by exact Hz.
  lra.
Qed.

(** The merge keeps the rows that have a benchmark return, in the order
    in which they were fetched. *)
Example merge_example :
  dropna (merge_left
            (map (fun r => mkDbRow (p_date r) (ticker_region r) (one_day_pct r / 100))
                 demo_fetched)
            demo_bench)
  = [ mkRow (mkDate 2017 1 3) "MSFT-US" (1 / 100) "SP50" 0.005;
      mkRow (mkDate 2017 1 3) "AAPL-US" (2 / 100) "SP50" 0.005;
      mkRow (mkDate 2017 1 4) "MSFT-US" (-2 / 100) "SP50" (-0.01);
      mkRow (mkDate 2017 1 4) "AAPL-US" (1 / 100) "SP50" (-0.01);
      mkRow (mkDate 2017 1 5) "MSFT-US" (3 / 100) "SP50" 0.02;
      mkRow (mkDate 2017 1 5) "AAPL-US" (-1 / 100) "SP50" 0.02 ].
Proof. reflexivity. Qed.

(** C2: for an analyzer built by [__init__] from two calendar dates, with
    [interval_days = end_date - start_date + 1] (inclusive day count,
    nonzero so that the exponent exists), [calc_cagrs] has the keys of
    [calc_total_returns] and maps every ticker with total return [tr] to
    [(1 + tr) ** (365.25 / interval_days) - 1]; for a positive base this
    is the real power.  The exponent mentions the two dates only, never the
    number of rows of the ticker. *)
Theorem calc_cagrs_formula :
  forall (h0 : heap) (fetched : list DbRow) (tks : list string)
         (s e : Date) (bench : list BenchRow),
    valid_date s = true ->
    valid_date e = true ->
    (ymd2ord e - ymd2ord s + 1 <> 0)%Z ->
    let interval_days := (ymd2ord e - ymd2ord s + 1)%Z in
    exists self h trs cagrs,
      __init__ fetched tks s e bench h0 = (Ok self, h)
      /\ run_stat (calc_total_returns self) "total_return" h = Ok trs
      /\ run_stat (calc_cagrs self) "cagr" h = Ok cagrs
      /\ map fst cagrs = map fst trs
      /\ forall t tr,
           assoc t trs = Some tr ->
           assoc t cagrs
           = Some (np_sub (np_pow (np_add (Real 1) tr) (365.25 / IZR interval_days))
                          (Real 1))
           /\ forall r, tr = Real r -> 0 < 1 + r ->
                assoc t cagrs
                = Some (Real (Rpower (1 + r) (365.25 / IZR interval_days) - 1)).
Proof.
  intros h0 fetched tks s e bench Hs He Hi interval_days.
  set (tbl := dropna (merge_left
                (map (fun r => mkDbRow (p_date r) (ticker_region r)
                                       (one_day_pct r / 100)) fetched) bench)).
  set (sp := {| days_in_year := 365.25; risk_free_rate := 0.00007;
                tickers := tks; start_date := s; end_date := e;
                interval := interval_days; daily_returns := length h0 |}).
  assert (HA : analyzer_at (h0 ++ [OTable tbl; OSelf sp]) (S (length h0)) sp tbl)
    by (now apply analyzer_at_snoc2).
  exists (S (length h0)), (h0 ++ [OTable tbl; OSelf sp]),
    (by_ticker total_return_of tbl),
    (by_ticker (fun d => cagr_value (365.25 / IZR interval_days) (total_return_of d)) tbl).
  split; [now apply init_run|].
  split; [now apply (run_total_returns _ _ sp)|].
  split; [now apply (run_cagrs _ _ sp tbl HA)|].
  split; [now rewrite !map_fst_by_ticker|].
  intros t tr Htr. apply assoc_by_ticker_inv in Htr as [Ht ->].
  rewrite (assoc_by_ticker_Some _ _ _ Ht). split; [reflexivity|].
  intros r Hr Hpos. f_equal. unfold cagr_value. rewrite Hr. simpl.
  rewrite np_pow_pos; [reflexivity|exact Hpos|].
  apply exponent_nonzero; [lra|exact Hi].
Qed.

Lemma calc_cagrs_formula_witness :
  valid_date (mkDate 2017 1 1) = true
  /\ valid_date (mkDate 2017 9 30) = true
  /\ (ymd2ord (mkDate 2017 9 30) - ymd2ord (mkDate 2017 1 1) + 1 = 273)%Z
  /\ exists self h trs cagrs,
      __init__ demo_fetched ["AAPL-US"; "MSFT-US"]
               (mkDate 2017 1 1) (mkDate 2017 9 30) demo_bench [] = (Ok self, h)
      /\ run_stat (calc_total_returns self) "total_return" h = Ok trs
      /\ run_stat (calc_cagrs self) "cagr" h = Ok cagrs
      /\ map fst cagrs = map fst trs
      /\ forall t tr,
           assoc t trs = Some tr ->
           assoc t cagrs
           = Some (np_sub (np_pow (np_add (Real 1) tr) (365.25 / IZR 273)) (Real 1))
           /\ forall r, tr = Real r -> 0 < 1 + r ->
                assoc t cagrs = Some (Real (Rpower (1 + r) (365.25 / IZR 273) - 1)).
Proof.
  split; [reflexivity|]. split; [reflexivity|]. split; [reflexivity|].
  apply (calc_cagrs_formula [] demo_fetched ["AAPL-US"; "MSFT-US"]
           (mkDate 2017 1 1) (mkDate 2017 9 30) demo_bench);
    [reflexivity|reflexivity|discriminate].
Defined.

Lemma elem_of_demo_MSFT : "MSFT-US" ∈ map ticker demo_tbl.
Proof. apply list_elem_of_In. simpl. auto. Qed.

Lemma demo_rows_MSFT :
  filter (fun r => ticker r = "MSFT-US") demo_tbl
  = [ mkRow (mkDate 2017 1 3) "MSFT-US" 0.01 "SP50" 0.005;
      mkRow (mkDate 2017 1 4) "MSFT-US" (-0.02) "SP50" (-0.01);
      mkRow (mkDate 2017 1 5) "MSFT-US" 0.03 "SP50" 0.02 ].
Proof. reflexivity. Qed.

Lemma demo_var_MSFT :
  np_var (map (fun r => bench_return r - risk_free_rate demo_sp)
              (filter (fun r => ticker r = "MSFT-US") demo_tbl)) <> 0.
Proof.
  rewrite demo_rows_MSFT. unfold np_var, np_mean. cbn [map length bench_return risk_free_rate demo_sp].
  rewrite !sum_cons, !sum_nil. simpl INR. lra.
Qed.

(** C3: for a ticker with at least two rows whose excess benchmark returns
    are not constant, [calc_alphas] yields the intercept and [calc_betas]
    the slope of one and the same least-squares line of
    [return - risk_free_rate] on [bench_return - risk_free_rate] over the
    ticker's rows: the two numbers are those of a single shared fit, and
    that line minimises the sum of squared residuals. *)
Theorem capm_alpha_beta_shared_fit :
  forall (h : heap) (self : loc) (sp : StockPerformance)
         (tbl : list ReturnsRow) (t : string),
    analyzer_at h self sp tbl ->
    t ∈ map ticker tbl ->
    let rows := filter (fun r => ticker r = t) tbl in
    let rf := risk_free_rate sp in
    (2 <= length rows)%nat ->
    np_var (map (fun r => bench_return r - rf) rows) <> 0 ->
    exists alphas betas,
      run_stat (calc_alphas self) "capm_alpha" h = Ok alphas
      /\ run_stat (calc_betas self) "capm_beta" h = Ok betas
      /\ assoc t alphas = Some (Real (alpha (shared_fit rf rows)))
      /\ assoc t betas = Some (Real (beta (shared_fit rf rows)))
      /\ forall a b : R,
           sse rf rows (alpha (shared_fit rf rows)) (beta (shared_fit rf rows))
           <= sse rf rows a b.
Proof.
  intros h self sp tbl t HA Ht rows rf Hlen Hvar.
  assert (Hne : rows <> []) by (intros E; rewrite E in Hlen; simpl in Hlen; lia).
  assert (Hnt : tbl <> []) by (now apply (ticker_nonempty t)).
  destruct (fit_ols_fit (fun r => bench_return r - rf) (fun r => return_ r - rf)
              rows Hne Hvar) as [Ea Eb].
  eexists _, _.
  split; [apply (run_alphas _ _ _ _ HA Hnt)|].
  split; [apply (run_betas _ _ _ _ HA Hnt)|].
  rewrite !(assoc_by_ticker_Some _ _ _ Ht).
  unfold shared_fit. rewrite Ea, Eb.
  split; [reflexivity|]. split; [reflexivity|].
  intros a b. unfold sse.
  apply (fit_minimises (fun r => bench_return r - rf) (fun r => return_ r - rf)
           rows Hne Hvar a b).
Qed.

Lemma capm_alpha_beta_shared_fit_witness :
  let rows := filter (fun r => ticker r = "MSFT-US") demo_tbl in
  let rf := risk_free_rate demo_sp in
  (2 <= length rows)%nat
  /\ np_var (map (fun r => bench_return r - rf) rows) <> 0
  /\ exists alphas betas,
      run_stat (calc_alphas 1%nat) "capm_alpha" demo_heap = Ok alphas
      /\ run_stat (calc_betas 1%nat) "capm_beta" demo_heap = Ok betas
      /\ assoc "MSFT-US" alphas = Some (Real (alpha (shared_fit rf rows)))
      /\ assoc "MSFT-US" betas = Some (Real (beta (shared_fit rf rows)))
      /\ forall a b : R,
           sse rf rows (alpha (shared_fit rf rows)) (beta (shared_fit rf rows))
           <= sse rf rows a b.
Proof.
  intros rows rf.
  assert (Hlen : (2 <= length rows)%nat).
  { unfold rows. rewrite demo_rows_MSFT. simpl. lia. }
  split; [exact Hlen|]. split; [exact demo_var_MSFT|].
  exact (capm_alpha_beta_shared_fit demo_heap 1%nat demo_sp demo_tbl "MSFT-US"
           demo_analyzer elem_of_demo_MSFT Hlen demo_var_MSFT).
Defined.

(** * Degenerate groups *)

Section Degenerate.

Lemma lone_analyzer : analyzer_at lone_heap 1%nat flat_sp lone_tbl.
Proof. split; reflexivity. Qed.

Lemma capm_value_degenerate (rf : R) (rows : list ReturnsRow) :
  rows <> [] ->
  np_var (map (fun r => bench_return r - rf) rows) = 0 ->
  capm_value rf rows "beta" = Some 0
  /\ capm_value rf rows "alpha"
     = Some (np_mean (map (fun r => return_ r - rf) rows)).
Proof.
  intros Hne Hv.
  destruct (fit_degenerate (fun r => bench_return r - rf)
              (fun r => return_ r - rf) rows Hne Hv) as [Hc Hi].
  unfold capm_value. cbv zeta. rewrite Hc, Hi. split; reflexivity.
Qed.

Lemma np_var_nonneg (l : list R) : 0 <= np_var l.
Proof.
  unfold np_var.
  pose proof (sum_map_nonneg (fun x => (x - np_mean l) * (x - np_mean l)) l) as H.
  destruct l as [|a l].
  - simpl. rewrite sum_nil. unfold Rdiv. rewrite Rmult_0_l. lra.
  - apply Rmult_le_pos.
    + apply H. intros x. apply Rle_0_sqr.
    + left. apply Rinv_0_lt_compat. cbn [length]. rewrite S_INR.
      pose proof (pos_INR (length l)). lra.
Qed.


Lemma np_truediv_finite (a b : R) : b <> 0 -> np_truediv a b = Real (a / b).
Proof.
  intros Hb. unfold np_truediv.
  destruct (Req_dec_T b 0); [contradiction|reflexivity].
Qed.


End Degenerate.

(** * Degenerate groups: the claims *)

(** C4 (as the code behaves): for a ticker with fewer than two rows, or
    whose excess benchmark returns have zero variance, [calc_alphas] and
    [calc_betas] raise nothing.  Both return normally, with an entry for
    the ticker; for a ticker with a single row the beta is [0] and the
    alpha is the excess return of that row. *)
Theorem capm_degenerate_returns_numbers :
  forall (h : heap) (self : loc) (sp : StockPerformance)
         (tbl : list ReturnsRow) (t : string),
    analyzer_at h self sp tbl ->
    t ∈ map ticker tbl ->
    let rows := filter (fun r => ticker r = t) tbl in
    let rf := risk_free_rate sp in
    ((length rows < 2)%nat
     \/ np_var (map (fun r => bench_return r - rf) rows) = 0) ->
    exists alphas betas,
      run_stat (calc_alphas self) "capm_alpha" h = Ok alphas
      /\ run_stat (calc_betas self) "capm_beta" h = Ok betas
      /\ (exists a, assoc t alphas = Some a)
      /\ (exists b, assoc t betas = Some b)
      /\ (forall r, rows = [r] ->
            assoc t betas = Some (Real 0)
            /\ assoc t alphas = Some (Real (return_ r - rf))).
Proof.
  intros h self sp tbl t HA Ht rows rf Hdeg.
  assert (Hnt : tbl <> []) by (now apply (ticker_nonempty t)).
  eexists _, _.
  split; [apply (run_alphas _ _ _ _ HA Hnt)|].
  split; [apply (run_betas _ _ _ _ HA Hnt)|].
  rewrite !(assoc_by_ticker_Some _ _ _ Ht).
  split; [eauto|]. split; [eauto|].
  intros r Hr. unfold group_rows. fold rows. rewrite Hr.
  assert (Hne : [r] <> []) by discriminate.
  assert (Hv : np_var (map (fun r => bench_return r - rf) [r]) = 0)
    by apply np_var_single.
  destruct (capm_value_degenerate rf [r] Hne Hv) as [Eb Ea].
  fold rf. rewrite Ea, Eb. split; [reflexivity|].
  unfold np_mean. cbn [cell map length].
  rewrite sum_cons, sum_nil. simpl INR. do 2 f_equal. field.
Qed.

Lemma elem_of_lone_X : "X" ∈ map ticker lone_tbl.
Proof. apply list_elem_of_In. simpl. auto. Qed.

Lemma capm_degenerate_returns_numbers_witness :
  let rows := filter (fun r => ticker r = "X") lone_tbl in
  let rf := risk_free_rate flat_sp in
  (length rows < 2)%nat
  /\ exists alphas betas,
      run_stat (calc_alphas 1%nat) "capm_alpha" lone_heap = Ok alphas
      /\ run_stat (calc_betas 1%nat) "capm_beta" lone_heap = Ok betas
      /\ (exists a, assoc "X" alphas = Some a)
      /\ (exists b, assoc "X" betas = Some b)
      /\ (forall r, rows = [r] ->
            assoc "X" betas = Some (Real 0)
            /\ assoc "X" alphas = Some (Real (return_ r - rf))).
Proof.
  intros rows rf.
  assert (Hlen : (length rows < 2)%nat) by (simpl; lia).
  split; [exact Hlen|].
  exact (capm_degenerate_returns_numbers lone_heap 1%nat flat_sp lone_tbl "X"
           lone_analyzer elem_of_lone_X (or_introl Hlen)).
Defined.

(** C4, counterexample: the only ticker has a single observation, yet
    both methods return a DataFrame of numbers: alpha is the excess return
    of that one row and beta is zero. *)
Lemma capm_single_observation_no_error :
  run_stat (calc_alphas 1%nat) "capm_alpha" lone_heap
  = Ok [("X", Real (np_mean [0.01 - 0.00007]))]
  /\ run_stat (calc_betas 1%nat) "capm_beta" lone_heap = Ok [("X", Real 0)]
  /\ np_mean [0.01 - 0.00007] = 0.00993.
Proof.
  assert (HX : filter (fun r => ticker r = "X") lone_tbl = lone_tbl) by reflexivity.
  assert (VX : np_var (map (fun r => bench_return r - 0.00007)
                 (filter (fun r => ticker r = "X") lone_tbl)) = 0).
  { rewrite HX. apply np_var_single. }
  assert (NX : filter (fun r => ticker r = "X") lone_tbl <> [])
    by (rewrite HX; discriminate).
  destruct (capm_value_degenerate 0.00007 _ NX VX) as [BX AX].
  assert (Hnt : lone_tbl <> []) by discriminate.
  rewrite (run_alphas _ _ _ _ lone_analyzer Hnt), (run_betas _ _ _ _ lone_analyzer Hnt).
  unfold by_ticker.
  change (group_keys lone_tbl) with ["X"].
  cbn [map risk_free_rate flat_sp]. unfold group_rows.
  rewrite AX, BX, HX. simpl.
  repeat split. unfold np_mean. simpl. rewrite sum_cons, sum_nil. lra.
Qed.




(** * The date range *)

Section DateOrder.

Local Open Scope Z_scope.

Lemma days_before_year_mono (p q : Z) :
  p <= q -> days_before_year p <= days_before_year q.
Proof.
  unfold days_before_year. intros H. cbv zeta.
  Z.div_mod_to_equations. lia.
Qed.

Lemma days_before_year_succ (y : Z) :
  days_before_year (y + 1)
  = days_before_year y + 365 + (if is_leap y then 1 else 0).
Proof.
  unfold days_before_year, is_leap.
  replace (y + 1 - 1) with y by lia.
  destruct (Z.eqb_spec (y mod 4) 0), (Z.eqb_spec (y mod 100) 0),
    (Z.eqb_spec (y mod 400) 0); simpl; Z.div_mod_to_equations; lia.
Qed.

Ltac month_cases m H :=
  assert (m = 1 \/ m = 2 \/ m = 3 \/ m = 4 \/ m = 5 \/ m = 6 \/ m = 7 \/ m = 8
          \/ m = 9 \/ m = 10 \/ m = 11 \/ m = 12) as H by lia;
  repeat (destruct H as [H|H]); subst m.

Lemma valid_date_inv (d : Date) :
  valid_date d = true ->
  1 <= year d <= 9999 /\ 1 <= month d <= 12
  /\ 1 <= day d <= days_in_month (year d) (month d).
Proof.
  unfold valid_date. intros H. repeat (apply andb_prop in H as [H ?]). lia.
Qed.

Lemma month_mono (y m1 m2 : Z) :
  1 <= m1 -> m1 < m2 -> m2 <= 12 ->
  days_before_month y m1 + days_in_month y m1 <= days_before_month y m2.
Proof.
  intros H1 H2 H3. unfold days_before_month, days_in_month.
  destruct (is_leap y); month_cases m1 Hm1; month_cases m2 Hm2; simpl; lia.
Qed.

Lemma year_end (y m : Z) :
  1 <= m <= 12 ->
  0 <= days_before_month y m
  /\ days_before_month y m + days_in_month y m
     <= 365 + (if is_leap y then 1 else 0).
Proof.
  intros H. unfold days_before_month, days_in_month.
  destruct (is_leap y); month_cases m Hm; simpl; lia.
Qed.

(** On calendar dates the ordinal respects the calendar order. *)
Lemma ymd2ord_lt (a b : Date) :
  valid_date a = true -> valid_date b = true ->
  date_ltb a b = true -> ymd2ord a < ymd2ord b.
Proof.
  intros Ha Hb Hlt.
  apply valid_date_inv in Ha as (Hya & Hma & Hda).
  apply valid_date_inv in Hb as (Hyb & Hmb & Hdb).
  unfold date_ltb in Hlt. unfold ymd2ord.
  apply orb_prop in Hlt as [Hy|Hlt].
  - apply Z.ltb_lt in Hy.
    pose proof (days_before_year_mono (year a + 1) (year b) ltac:(lia)).
    pose proof (days_before_year_succ (year a)).
    pose proof (year_end (year a) (month a) Hma).
    pose proof (year_end (year b) (month b) Hmb).
    lia.
  - apply andb_prop in Hlt as [Hy Hlt]. apply Z.eqb_eq in Hy.
    apply orb_prop in Hlt as [Hm|Hlt].
    + apply Z.ltb_lt in Hm.
      pose proof (month_mono (year a) (month a) (month b)
                    ltac:(lia) Hm ltac:(lia)).
      rewrite Hy in *. lia.
    + apply andb_prop in Hlt as [Hm Hd].
      apply Z.eqb_eq in Hm. apply Z.ltb_lt in Hd.
      rewrite Hy, Hm. lia.
Qed.

End DateOrder.

(** A string that spells no calendar date is refused by [strptime]. *)
Lemma init_rejects_non_dates (h0 : heap) fetched tks (s e : Date) bench :
  valid_date s = false \/ valid_date e = false ->
  exists h, __init__ fetched tks s e bench h0 = (Raise ValueError, h).
Proof.
  intros Hbad. unfold __init__.
  erewrite bind_Ok by reflexivity.
  destruct (valid_date s) eqn:Hs.
  - destruct Hbad as [?|He]; [discriminate|].
    rewrite (bind_Ok _ _ _ _ _ (strptime_run _ _ Hs)).
    erewrite bind_Raise by (apply strptime_raise, He). eauto.
  - erewrite bind_Raise by (apply strptime_raise, Hs). eauto.
Qed.

Section Query.

Lemma date_ltb_spec (a b : Date) :
  date_ltb a b = true
  <-> (year a < year b
       \/ (year a = year b
           /\ (month a < month b \/ (month a = month b /\ day a < day b))))%Z.
Proof.
  unfold date_ltb.
  rewrite !orb_true_iff, !andb_true_iff, !orb_true_iff, !andb_true_iff,
          !Z.ltb_lt, !Z.eqb_eq.
  tauto.
Qed.

(** No date lies between a start date and an earlier end date. *)
Lemma between_reversed (s e d : Date) :
  date_ltb e s = true -> date_leb s d && date_leb d e = false.
Proof.
  intros Hes. apply date_ltb_spec in Hes.
  destruct (date_leb s d && date_leb d e) eqn:E; [|reflexivity].
  apply andb_true_iff in E as [H1 H2]. unfold date_leb in H1, H2.
  apply negb_true_iff in H1, H2.
  assert (N1 : ~ date_ltb d s = true) by (rewrite H1; discriminate).
  assert (N2 : ~ date_ltb e d = true) by (rewrite H2; discriminate).
  rewrite date_ltb_spec in N1, N2. lia.
Qed.

(** With the end date before the start date the query selects no row. *)
Lemma fetchall_reversed (db : list DbRow) (tks : list string) (s e : Date) :
  date_ltb e s = true -> fetchall db tks s e = [].
Proof.
  intros Hes. unfold fetchall.
  induction db as [|r db IH]; [reflexivity|]. simpl.
  rewrite <- andb_assoc, (between_reversed s e (p_date r) Hes), andb_false_r.
  exact IH.
Qed.

End Query.

(** C6 (as the code behaves): construction does not compare its two
    dates.  For at least one ticker and any two calendar dates, in either
    order, [__init__] succeeds and stores [interval = end_date - start_date + 1] in days.
    When [end_date] is before [start_date] that interval is zero or
    negative, the query has selected no row, the table is empty, and
    [calc_total_returns] goes on to return an empty result. *)
Theorem init_accepts_any_date_order :
  forall (h0 : heap) (db : list DbRow) (tks : list string)
         (s e : Date) (bench : list BenchRow),
    tks <> [] ->
    valid_date s = true ->
    valid_date e = true ->
    exists h sp tbl,
      __init__ (fetchall db tks s e) tks s e bench h0 = (Ok (S (length h0)), h)
      /\ analyzer_at h (S (length h0)) sp tbl
      /\ start_date sp = s
      /\ end_date sp = e
      /\ interval sp = (ymd2ord e - ymd2ord s + 1)%Z
      /\ (date_ltb e s = true ->
          (interval sp <= 0)%Z
          /\ tbl = []
          /\ run_stat (calc_total_returns (S (length h0))) "total_return" h = Ok []).
Proof.
  intros h0 db tks s e bench _ Hs He.
  set (tbl := dropna (merge_left
                (map (fun r => mkDbRow (p_date r) (ticker_region r)
                                       (one_day_pct r / 100))
                     (fetchall db tks s e)) bench)).
  set (sp := {| days_in_year := 365.25; risk_free_rate := 0.00007;
                tickers := tks; start_date := s; end_date := e;
                interval := (ymd2ord e - ymd2ord s + 1)%Z;
                daily_returns := length h0 |}).
  assert (HA : analyzer_at (h0 ++ [OTable tbl; OSelf sp]) (S (length h0)) sp tbl)
    by (now apply analyzer_at_snoc2).
  exists (h0 ++ [OTable tbl; OSelf sp]), sp, tbl.
  split; [now apply init_run|]. split; [exact HA|].
  split; [reflexivity|]. split; [reflexivity|]. split; [reflexivity|].
  intros Hlt.
  assert (Ht : tbl = []) by (unfold tbl; now rewrite (fetchall_reversed _ _ _ _ Hlt)).
  split; [|split].
  - pose proof (ymd2ord_lt e s He Hs Hlt). simpl. lia.
  - exact Ht.
  - rewrite (run_total_returns _ _ _ _ HA), Ht. reflexivity.
Qed.

Lemma init_accepts_any_date_order_witness :
  ["AAPL-US"; "MSFT-US"] <> []
  /\ valid_date (mkDate 2017 1 10) = true
  /\ valid_date (mkDate 2017 1 1) = true
  /\ exists h sp tbl,
      __init__ (fetchall demo_fetched ["AAPL-US"; "MSFT-US"]
                         (mkDate 2017 1 10) (mkDate 2017 1 1))
               ["AAPL-US"; "MSFT-US"]
               (mkDate 2017 1 10) (mkDate 2017 1 1) demo_bench []
      = (Ok 1%nat, h)
      /\ analyzer_at h 1%nat sp tbl
      /\ start_date sp = mkDate 2017 1 10
      /\ end_date sp = mkDate 2017 1 1
      /\ interval sp = (ymd2ord (mkDate 2017 1 1) - ymd2ord (mkDate 2017 1 10) + 1)%Z
      /\ (date_ltb (mkDate 2017 1 1) (mkDate 2017 1 10) = true ->
          (interval sp <= 0)%Z
          /\ tbl = []
          /\ run_stat (calc_total_returns 1%nat) "total_return" h = Ok []).
Proof.
  assert (Hne : ["AAPL-US"; "MSFT-US"] <> []) by discriminate.
  split; [exact Hne|]. split; [reflexivity|]. split; [reflexivity|].
  exact (init_accepts_any_date_order [] demo_fetched ["AAPL-US"; "MSFT-US"]
           (mkDate 2017 1 10) (mkDate 2017 1 1) demo_bench Hne eq_refl eq_refl).
Defined.

(** C6, counterexample: with [start_date] 2017-01-10 and [end_date]
    2017-01-01 the query selects none of the rows of the database,
    construction succeeds with an interval of -8 days, and
    [calc_total_returns] returns normally. *)
Lemma init_reversed_dates_no_error :
  date_ltb (mkDate 2017 1 1) (mkDate 2017 1 10) = true
  /\ exists sp,
      __init__ (fetchall demo_fetched ["AAPL-US"; "MSFT-US"]
                         (mkDate 2017 1 10) (mkDate 2017 1 1))
               ["AAPL-US"; "MSFT-US"]
               (mkDate 2017 1 10) (mkDate 2017 1 1) demo_bench []
      = (Ok 1%nat, [OTable []; OSelf sp])
      /\ start_date sp = mkDate 2017 1 10
      /\ end_date sp = mkDate 2017 1 1
      /\ interval sp = (-8)%Z
      /\ run_stat (calc_total_returns 1%nat) "total_return" [OTable []; OSelf sp]
         = Ok [].
Proof.
  split; [reflexivity|].
  eexists. split.
  - apply (init_run [] (fetchall demo_fetched ["AAPL-US"; "MSFT-US"]
                          (mkDate 2017 1 10) (mkDate 2017 1 1))
             _ (mkDate 2017 1 10) (mkDate 2017 1 1) demo_bench eq_refl eq_refl).
  - repeat split.
Qed.

(** * Keys of the results *)

Lemma StronglySorted_impl {A} (P Q : A -> A -> Prop) (l : list A) :
  (forall a b, P a b -> Q a b) -> StronglySorted P l -> StronglySorted Q l.
Proof.
  intros HPQ. induction 1 as [|a l _ IH HF]; constructor; [exact IH|].
  eapply Forall_impl; [exact HF|]. intros b Hb. now apply HPQ.
Qed.

(** C7 (as the code behaves): on a table that has at least one row, the
    five methods return results with exactly the same keys in exactly the
    same order; the keys are the distinct tickers of the table, each once,
    in ascending order of the ticker strings (the order in which [groupby]
    sorts its groups). *)
Theorem results_share_sorted_keys :
  forall (h : heap) (self : loc) (sp : StockPerformance) (tbl : list ReturnsRow),
    analyzer_at h self sp tbl ->
    tbl <> [] ->
    interval sp <> 0%Z ->
    exists keys totals cagrs alphas betas sharpes,
      run_stat (calc_total_returns self) "total_return" h = Ok totals
      /\ run_stat (calc_cagrs self) "cagr" h = Ok cagrs
      /\ run_stat (calc_alphas self) "capm_alpha" h = Ok alphas
      /\ run_stat (calc_betas self) "capm_beta" h = Ok betas
      /\ run_stat (calc_sharpe_ratios self) "sharpe_ratio" h = Ok sharpes
      /\ map fst totals = keys
      /\ map fst cagrs = keys
      /\ map fst alphas = keys
      /\ map fst betas = keys
      /\ map fst sharpes = keys
      /\ (forall k, k ∈ keys <-> k ∈ map ticker tbl)
      /\ StronglySorted (fun a b => String.compare a b = Lt) keys.
Proof.
  intros h self sp tbl HA Hne Hi.
  exists (group_keys tbl). eexists _, _, _, _, _.
  split; [apply (run_total_returns _ _ _ _ HA)|].
  split; [apply (run_cagrs _ _ _ _ HA Hi)|].
  split; [apply (run_alphas _ _ _ _ HA Hne)|].
  split; [apply (run_betas _ _ _ _ HA Hne)|].
  split; [apply (run_sharpe_ratios _ _ _ _ HA)|].
  rewrite !map_fst_by_ticker. repeat split; try reflexivity.
  - now apply elem_of_group_keys.
  - now apply elem_of_group_keys.
  - eapply StronglySorted_impl; [|apply group_keys_sorted].
    intros a b Hab. now apply compare_Lt.
Qed.

Lemma results_share_sorted_keys_witness :
  demo_tbl <> []
  /\ interval demo_sp <> 0%Z
  /\ exists keys totals cagrs alphas betas sharpes,
      run_stat (calc_total_returns 1%nat) "total_return" demo_heap = Ok totals
      /\ run_stat (calc_cagrs 1%nat) "cagr" demo_heap = Ok cagrs
      /\ run_stat (calc_alphas 1%nat) "capm_alpha" demo_heap = Ok alphas
      /\ run_stat (calc_betas 1%nat) "capm_beta" demo_heap = Ok betas
      /\ run_stat (calc_sharpe_ratios 1%nat) "sharpe_ratio" demo_heap = Ok sharpes
      /\ map fst totals = keys
      /\ map fst cagrs = keys
      /\ map fst alphas = keys
      /\ map fst betas = keys
      /\ map fst sharpes = keys
      /\ (forall k, k ∈ keys <-> k ∈ map ticker demo_tbl)
      /\ StronglySorted (fun a b => String.compare a b = Lt) keys.
Proof.
  assert (Hne : demo_tbl <> []) by discriminate.
  assert (Hi : interval demo_sp <> 0%Z) by discriminate.
  split; [exact Hne|]. split; [exact Hi|].
  exact (results_share_sorted_keys demo_heap 1%nat demo_sp demo_tbl
           demo_analyzer Hne Hi).
Defined.

(** C7, counterexample: the table meets MSFT-US before AAPL-US, and the
    result lists AAPL-US first. *)
Lemma keys_not_in_first_encountered_order :
  keys_first_encountered demo_tbl = ["MSFT-US"; "AAPL-US"]
  /\ exists totals,
      run_stat (calc_total_returns 1%nat) "total_return" demo_heap = Ok totals
      /\ map fst totals = ["AAPL-US"; "MSFT-US"]
      /\ map fst totals <> keys_first_encountered demo_tbl.
Proof.
  split; [reflexivity|].
  eexists. split; [apply (run_total_returns _ _ _ _ demo_analyzer)|].
  rewrite map_fst_by_ticker.
  split; [reflexivity|]. discriminate.
Qed.

(** * The growth rate as a function of the total return *)

Section GrowthRate.



End GrowthRate.





(** * The methods only add objects *)

Section Frame.

Lemma call_extends (m : stat_method) (h : heap) (self : loc) sp tbl :
  analyzer_at h self sp tbl -> exists ext, snd (call m self h) = h ++ ext.
Proof.
  intros HA. destruct m; simpl.
  - rewrite (calc_total_returns_run _ _ _ _ HA). simpl. eauto.
  - destruct (Z.eq_dec (interval sp) 0%Z) as [Hz|Hnz].
    + rewrite (calc_cagrs_raise _ _ _ _ HA Hz). simpl. eauto.
    + rewrite (calc_cagrs_run _ _ _ _ HA Hnz). simpl.
      rewrite <- app_assoc. eauto.
  - destruct tbl as [|r0 tbl0].
    + rewrite (calc_alphas_raise _ _ _ HA). simpl. eauto.
    + rewrite (calc_alphas_run _ _ _ _ HA ltac:(discriminate)). simpl. eauto.
  - destruct tbl as [|r0 tbl0].
    + rewrite (calc_betas_raise _ _ _ HA). simpl. eauto.
    + rewrite (calc_betas_run _ _ _ _ HA ltac:(discriminate)). simpl. eauto.
  - rewrite (calc_sharpe_ratios_run _ _ _ _ HA). simpl. eauto.
Qed.

Lemma call_all_extends (ms : list stat_method) (h : heap) (self : loc) sp tbl :
  analyzer_at h self sp tbl -> exists ext, call_all ms self h = h ++ ext.
Proof.
  revert h. induction ms as [|m ms IH]; intros h HA; simpl.
  - exists []. now rewrite app_nil_r.
  - destruct (call_extends m h self sp tbl HA) as [ext1 E1].
    unfold call_all in *. simpl. rewrite E1.
    destruct (IH (h ++ ext1) (analyzer_at_app _ _ _ _ _ HA)) as [ext2 E2].
    rewrite E2, <- app_assoc. eauto.
Qed.

(** What a method returns depends on the instance and its table only. *)
Lemma run_stat_call_eq (m : stat_method) (h h' : heap) (self : loc) sp tbl :
  analyzer_at h self sp tbl ->
  analyzer_at h' self sp tbl ->
  run_stat (call m self) (column_of m) h' = run_stat (call m self) (column_of m) h.
Proof.
  intros HA HA'. destruct m; simpl.
  - now rewrite (run_total_returns _ _ _ _ HA), (run_total_returns _ _ _ _ HA').
  - destruct (Z.eq_dec (interval sp) 0%Z) as [Hz|Hnz].
    + now rewrite (run_cagrs_raise _ _ _ _ HA Hz), (run_cagrs_raise _ _ _ _ HA' Hz).
    + now rewrite (run_cagrs _ _ _ _ HA Hnz), (run_cagrs _ _ _ _ HA' Hnz).
  - destruct tbl as [|r0 tbl0].
    + now rewrite (run_alphas_raise _ _ _ _ HA), (run_alphas_raise _ _ _ _ HA').
    + now rewrite (run_alphas _ _ _ _ HA ltac:(discriminate)),
                  (run_alphas _ _ _ _ HA' ltac:(discriminate)).
  - destruct tbl as [|r0 tbl0].
    + now rewrite (run_betas_raise _ _ _ _ HA), (run_betas_raise _ _ _ _ HA').
    + now rewrite (run_betas _ _ _ _ HA ltac:(discriminate)),
                  (run_betas _ _ _ _ HA' ltac:(discriminate)).
  - now rewrite (run_sharpe_ratios _ _ _ _ HA), (run_sharpe_ratios _ _ _ _ HA').
Qed.

End Frame.

(** C9: calling the statistic methods, any of the five, any number of
    times and in any order, leaves every object that existed before the
    calls as it was, in particular the instance with its parameters and
    its table; and every method returns after those calls exactly what it
    returns before them. *)
Theorem methods_do_not_mutate :
  forall (ms : list stat_method) (h : heap) (self : loc)
         (sp : StockPerformance) (tbl : list ReturnsRow),
    analyzer_at h self sp tbl ->
    (forall (l : loc) (o : obj),
        h !! l = Some o -> call_all ms self h !! l = Some o)
    /\ analyzer_at (call_all ms self h) self sp tbl
    /\ (forall m : stat_method,
          run_stat (call m self) (column_of m) (call_all ms self h)
          = run_stat (call m self) (column_of m) h).
Proof.
  intros ms h self sp tbl HA.
  destruct (call_all_extends ms h self sp tbl HA) as [ext E].
  rewrite E.
  assert (HA' : analyzer_at (h ++ ext) self sp tbl) by (now apply analyzer_at_app).
  split; [|split].
  - intros l o Hl. now apply lookup_app_l_Some.
  - exact HA'.
  - intros m. now apply (run_stat_call_eq m h (h ++ ext) self sp tbl).
Qed.

Lemma methods_do_not_mutate_witness :
  let ms := [Cagrs; TotalReturns; Alphas; Cagrs; SharpeRatios; Betas] in
  analyzer_at demo_heap 1%nat demo_sp demo_tbl
  /\ (forall (l : loc) (o : obj),
         demo_heap !! l = Some o -> call_all ms 1%nat demo_heap !! l = Some o)
  /\ analyzer_at (call_all ms 1%nat demo_heap) 1%nat demo_sp demo_tbl
  /\ (forall m : stat_method,
         run_stat (call m 1%nat) (column_of m) (call_all ms 1%nat demo_heap)
         = run_stat (call m 1%nat) (column_of m) demo_heap).
Proof.
  intros ms. split; [exact demo_analyzer|].
  exact (methods_do_not_mutate ms demo_heap 1%nat demo_sp demo_tbl demo_analyzer).
Defined.

(** C10: the result of [capm_regression] does not depend on its
    [port_returns] and [bench_returns] arguments: for every heap, data
    frame and [stat], two calls that differ only in those two arguments
    return the same value and leave the same heap. *)
Theorem capm_regression_ignores_column_names :
  forall (self : loc) (data : list ReturnsRow) (stat : string)
         (port1 bench1 port2 bench2 : string) (h : heap),
    capm_regression self data port1 bench1 stat h
    = capm_regression self data port2 bench2 stat h.
Proof. intros. reflexivity. Qed.

(** What the helper does read: the two fixed columns of the frame, the
    stored [risk_free_rate] and [stat]. *)
Lemma capm_regression_reads (h h' : heap) (self self' : loc) sp sp'
    (data data' : list ReturnsRow) (port bench port' bench' stat : string) :
  h !! self = Some (OSelf sp) ->
  h' !! self' = Some (OSelf sp') ->
  risk_free_rate sp = risk_free_rate sp' ->
  map return_ data = map return_ data' ->
  map bench_return data = map bench_return data' ->
  fst (capm_regression self data port bench stat h)
  = fst (capm_regression self' data' port' bench' stat h').
Proof.
  intros Hs Hs' Hrf Hr Hb.
  rewrite (capm_regression_run _ _ _ _ _ _ _ Hs),
          (capm_regression_run _ _ _ _ _ _ _ Hs').
  simpl. f_equal. unfold capm_value. rewrite <- Hrf.
  replace (map (fun r => bench_return r - risk_free_rate sp) data')
    with (map (fun r => bench_return r - risk_free_rate sp) data).
  2:{ rewrite <- (map_map bench_return (fun x => x - risk_free_rate sp)), Hb.
      now rewrite map_map. }
  replace (map (fun r => return_ r - risk_free_rate sp) data')
    with (map (fun r => return_ r - risk_free_rate sp) data).
  2:{ rewrite <- (map_map return_ (fun x => x - risk_free_rate sp)), Hr.
      now rewrite map_map. }
  reflexivity.
Qed.

(** * Construction: the table *)

Section Join.

Lemma in_merge_left (left : list DbRow) (right : list BenchRow)
    (l : DbRow) (ob : option BenchRow) :
  In (l, ob) (merge_left left right) <->
  In l left
  /\ match ob with
     | Some b => In b right /\ date_eqb (b_date b) (p_date l) = true
     | None => forall b, In b right -> date_eqb (b_date b) (p_date l) = false
     end.
Proof.
  unfold merge_left. rewrite in_flat_map. split.
  - intros (l' & Hl' & Hin).
    destruct (List.filter (fun b => date_eqb (b_date b) (p_date l')) right)
      as [|b0 bs] eqn:E.
    + destruct Hin as [Heq|[]]. inversion Heq; subst. split; [exact Hl'|].
      intros b Hb. destruct (date_eqb (b_date b) (p_date l)) eqn:Hd; [|reflexivity].
      assert (Hf : In b (List.filter (fun b => date_eqb (b_date b) (p_date l)) right))
        by (apply filter_In; auto).
      rewrite E in Hf. destruct Hf.
    + rewrite <- E in Hin. apply in_map_iff in Hin as (b & Heq & Hb).
      inversion Heq; subst. apply filter_In in Hb. tauto.
  - intros [Hl Hob]. exists l. split; [exact Hl|].
    destruct ob as [b|].
    + destruct Hob as [Hb Hd].
      assert (Hf : In b (List.filter (fun b => date_eqb (b_date b) (p_date l)) right))
        by (apply filter_In; auto).
      destruct (List.filter (fun b => date_eqb (b_date b) (p_date l)) right)
        as [|b0 bs] eqn:E; [destruct Hf|].
      rewrite <- E. apply in_map_iff. exists b. rewrite E. auto.
    + destruct (List.filter (fun b => date_eqb (b_date b) (p_date l)) right)
        as [|b0 bs] eqn:E; [now left|].
      assert (Hf : In b0 (List.filter (fun b => date_eqb (b_date b) (p_date l)) right))
        by (rewrite E; now left).
      apply filter_In in Hf as [Hb0 Hd]. rewrite (Hob b0 Hb0) in Hd. discriminate.
Qed.

Lemma in_dropna (rows : list (DbRow * option BenchRow)) (r : ReturnsRow) :
  In r (dropna rows) <->
  exists l b br,
    In (l, Some b) rows /\ b_bench_return b = Some br
    /\ r = mkRow (p_date l) (ticker_region l) (one_day_pct l) (b_benchmark b) br.
Proof.
  unfold dropna. rewrite in_flat_map. split.
  - intros ([l ob] & Hin & Hr). simpl in Hr.
    destruct ob as [b|]; [|destruct Hr].
    destruct (b_bench_return b) as [br|] eqn:E; [|destruct Hr].
    destruct Hr as [<-|[]]. exists l, b, br. auto.
  - intros (l & b & br & Hin & E & ->). exists (l, Some b). split; [exact Hin|].
    simpl. rewrite E. now left.
Qed.

End Join.

(** X1: the table that [__init__] stores is the inner join of the fetched
    rows with the benchmark rows on the date: a row is in the table exactly
    when it pairs a fetched row, its return divided by 100, with a
    benchmark row of the same date whose [bench_return] is present. *)
Theorem init_table_is_inner_join :
  forall (h0 : heap) (fetched : list DbRow) (tks : list string)
         (s e : Date) (bench : list BenchRow),
    valid_date s = true ->
    valid_date e = true ->
    exists self h sp tbl,
      __init__ fetched tks s e bench h0 = (Ok self, h)
      /\ analyzer_at h self sp tbl
      /\ forall r : ReturnsRow,
           r ∈ tbl <->
           exists f b br,
             f ∈ fetched /\ b ∈ bench
             /\ date_eqb (b_date b) (p_date f) = true
             /\ b_bench_return b = Some br
             /\ r = mkRow (p_date f) (ticker_region f) (one_day_pct f / 100)
                          (b_benchmark b) br.
Proof.
  intros h0 fetched tks s e bench Hs He.
  eexists _, _, _, _. split; [now apply init_run|].
  split; [now apply analyzer_at_snoc2|].
  intros r. rewrite list_elem_of_In, in_dropna. split.
  - intros (l & b & br & Hin & Hbr & ->).
    apply in_merge_left in Hin as (Hl & Hb & Hd).
    apply in_map_iff in Hl as (f & <- & Hf).
    exists f, b, br. rewrite !list_elem_of_In. simpl in *. auto.
  - intros (f & b & br & Hf & Hb & Hd & Hbr & ->).
    apply list_elem_of_In in Hf, Hb.
    exists (mkDbRow (p_date f) (ticker_region f) (one_day_pct f / 100)), b, br.
    split; [|split; [exact Hbr|reflexivity]].
    apply in_merge_left. split; [|split; [exact Hb|exact Hd]].
    apply in_map_iff. exists f. auto.
Qed.

Lemma init_table_is_inner_join_witness :
  valid_date (mkDate 2017 1 1) = true
  /\ valid_date (mkDate 2017 9 30) = true
  /\ exists self h sp tbl,
      __init__ demo_fetched ["AAPL-US"; "MSFT-US"]
               (mkDate 2017 1 1) (mkDate 2017 9 30) demo_bench [] = (Ok self, h)
      /\ analyzer_at h self sp tbl
      /\ forall r : ReturnsRow,
           r ∈ tbl <->
           exists f b br,
             f ∈ demo_fetched /\ b ∈ demo_bench
             /\ date_eqb (b_date b) (p_date f) = true
             /\ b_bench_return b = Some br
             /\ r = mkRow (p_date f) (ticker_region f) (one_day_pct f / 100)
                          (b_benchmark b) br.
Proof.
  split; [reflexivity|]. split; [reflexivity|].
  exact (init_table_is_inner_join [] demo_fetched ["AAPL-US"; "MSFT-US"]
           (mkDate 2017 1 1) (mkDate 2017 9 30) demo_bench eq_refl eq_refl).
Defined.

(** * Construction: the interval *)

Section Interval.

Lemma date_ltb_total (a b : Date) :
  date_ltb a b = false -> date_ltb b a = false -> a = b.
Proof.
  destruct a as [ya ma da], b as [yb mb db]. unfold date_ltb. simpl.
  intros H1 H2.
  destruct (Z.ltb_spec ya yb), (Z.ltb_spec yb ya), (Z.eqb_spec ya yb),
    (Z.eqb_spec yb ya), (Z.ltb_spec ma mb), (Z.ltb_spec mb ma),
    (Z.eqb_spec ma mb), (Z.eqb_spec mb ma), (Z.ltb_spec da db),
    (Z.ltb_spec db da); simpl in *; try discriminate; try lia.
  f_equal; lia.
Qed.

End Interval.

(** X3: for two calendar dates the stored interval is at least one day
    exactly when [end_date] is not before [start_date]; it is one day
    exactly when the two dates are the same day. *)
Theorem interval_positive_iff_ordered :
  forall (h0 : heap) (fetched : list DbRow) (tks : list string)
         (s e : Date) (bench : list BenchRow),
    valid_date s = true ->
    valid_date e = true ->
    exists self h sp tbl,
      __init__ fetched tks s e bench h0 = (Ok self, h)
      /\ analyzer_at h self sp tbl
      /\ ((1 <= interval sp)%Z <-> date_ltb e s = false)
      /\ (interval sp = 1%Z <-> e = s).
Proof.
  intros h0 fetched tks s e bench Hs He.
  eexists _, _, _, _. split; [now apply init_run|].
  split; [now apply analyzer_at_snoc2|]. cbn [interval].
  assert (Hcases : (date_ltb e s = true /\ (ymd2ord e < ymd2ord s)%Z)
                   \/ (date_ltb e s = false /\ e = s)
                   \/ (date_ltb e s = false /\ (ymd2ord s < ymd2ord e)%Z /\ e <> s)).
  { destruct (date_ltb e s) eqn:Hes.
    - left. split; [reflexivity|]. now apply ymd2ord_lt.
    - right. destruct (date_ltb s e) eqn:Hse.
      + right. split; [reflexivity|]. split; [now apply ymd2ord_lt|].
        intros ->. rewrite Hes in Hse. discriminate.
      + left. split; [reflexivity|]. now apply date_ltb_total. }
  destruct Hcases as [[H1 H2]|[[H1 H2]|(H1 & H2 & H3)]].
  - rewrite H1. split; split.
    + intros H. exfalso. lia.
    + discriminate.
    + intros H. exfalso. lia.
    + intros ->. exfalso. lia.
  - subst e. split; split.
    + intros _. exact H1.
    + intros _. lia.
    + reflexivity.
    + intros _. lia.
  - rewrite H1. split; split.
    + reflexivity.
    + intros _. lia.
    + intros H. exfalso. lia.
    + intros E. contradiction.
Qed.

Lemma interval_positive_iff_ordered_witness :
  valid_date (mkDate 2018 6 1) = true
  /\ valid_date (mkDate 2019 1 15) = true
  /\ exists self h sp tbl,
      __init__ demo_fetched ["AAPL-US"; "MSFT-US"]
               (mkDate 2018 6 1) (mkDate 2019 1 15) demo_bench [] = (Ok self, h)
      /\ analyzer_at h self sp tbl
      /\ ((1 <= interval sp)%Z <-> date_ltb (mkDate 2019 1 15) (mkDate 2018 6 1) = false)
      /\ (interval sp = 1%Z <-> mkDate 2019 1 15 = mkDate 2018 6 1).
Proof.
  split; [reflexivity|]. split; [reflexivity|].
  exact (interval_positive_iff_ordered [] demo_fetched ["AAPL-US"; "MSFT-US"]
           (mkDate 2018 6 1) (mkDate 2019 1 15) demo_bench eq_refl eq_refl).
Defined.

(** * Groups *)

Section Partition.

Lemma flat_map_filter_skip (r : ReturnsRow) (t : list ReturnsRow) (ks : list string) :
  ticker r ∉ ks ->
  flat_map (fun k => group_rows k (r :: t)) ks = flat_map (fun k => group_rows k t) ks.
Proof.
  induction ks as [|k ks IH]; intros Hn; simpl; [reflexivity|].
  rewrite IH by (intros H; apply Hn; now right).
  f_equal. unfold group_rows. rewrite filter_cons.
  destruct (decide (ticker r = k)) as [E|_]; [|reflexivity].
  exfalso. apply Hn. rewrite E. left.
Qed.

Lemma flat_map_filter_cons (r : ReturnsRow) (t : list ReturnsRow) (ks : list string) :
  NoDup ks -> ticker r ∈ ks ->
  Permutation (flat_map (fun k => group_rows k (r :: t)) ks)
              (r :: flat_map (fun k => group_rows k t) ks).
Proof.
  induction 1 as [|k ks Hk Hnd IH]; intros Hin.
  - now apply not_elem_of_nil in Hin.
  - simpl. unfold group_rows at 1. rewrite filter_cons.
    destruct (decide (ticker r = k)) as [E|N].
    + rewrite flat_map_filter_skip by (now rewrite E). reflexivity.
    + apply elem_of_cons in Hin as [?|Hin]; [contradiction|].
      rewrite (IH Hin). fold (group_rows k t). symmetry. apply Permutation_middle.
Qed.

Lemma flat_map_groups_nil (ks : list string) :
  flat_map (fun k => group_rows k []) ks = [].
Proof. induction ks as [|k ks IH]; simpl; [reflexivity|exact IH]. Qed.

Lemma groups_partition (tbl : list ReturnsRow) (ks : list string) :
  NoDup ks -> (forall r, r ∈ tbl -> ticker r ∈ ks) ->
  Permutation (flat_map (fun k => group_rows k tbl) ks) tbl.
Proof.
  intros Hnd. induction tbl as [|r t IH]; intros Hall.
  - now rewrite flat_map_groups_nil.
  - rewrite flat_map_filter_cons; [|exact Hnd|apply Hall; left].
    constructor. apply IH. intros r' Hr'. apply Hall. now right.
Qed.

End Partition.

(** X4: [groupby] splits the table into one non-empty group per distinct
    ticker: the keys have no duplicates, every row of a group carries the
    group's key, and the groups put together are a permutation of the
    table, so that every row is used for exactly one ticker. *)
Theorem groupby_partitions_table :
  forall tbl : list ReturnsRow,
    NoDup (group_keys tbl)
    /\ (forall k, k ∈ group_keys tbl ->
          group_rows k tbl <> []
          /\ forall r, r ∈ group_rows k tbl -> ticker r = k /\ r ∈ tbl)
    /\ Permutation (flat_map (fun k => group_rows k tbl) (group_keys tbl)) tbl.
Proof.
  intros tbl. split; [|split].
  - apply sorted_NoDup, group_keys_sorted.
  - intros k Hk. split.
    + apply group_rows_nonempty. now apply elem_of_group_keys.
    + intros r Hr. unfold group_rows in Hr. apply list_elem_of_filter in Hr. tauto.
  - apply groups_partition.
    + apply sorted_NoDup, group_keys_sorted.
    + intros r Hr. apply elem_of_group_keys. now apply list_elem_of_fmap_2.
Qed.

(** * The fitted line is the only minimiser *)

Lemma capm_value_beta (rf : R) (d : list ReturnsRow) :
  capm_value rf d "beta"
  = Some (coef_ (fit (map (fun r => bench_return r - rf) d)
                     (map (fun r => return_ r - rf) d))).
Proof. reflexivity. Qed.

Lemma capm_value_alpha (rf : R) (d : list ReturnsRow) :
  capm_value rf d "alpha"
  = Some (intercept_ (fit (map (fun r => bench_return r - rf) d)
                          (map (fun r => return_ r - rf) d))).
Proof. reflexivity. Qed.

Section Unique.

Context {A : Type}.
Implicit Types (f g : A -> R) (l : list A).

Lemma fit_unique f g l :
  l <> [] ->
  np_var (map f l) <> 0 ->
  forall a b : R,
    sum (map (fun r => (g r - (a + b * f r)) * (g r - (a + b * f r))) l)
    <= sum (map (fun r =>
             (g r - (intercept_ (fit (map f l) (map g l))
                     + coef_ (fit (map f l) (map g l)) * f r))
             * (g r - (intercept_ (fit (map f l) (map g l))
                       + coef_ (fit (map f l) (map g l)) * f r))) l) ->
    a = intercept_ (fit (map f l) (map g l))
    /\ b = coef_ (fit (map f l) (map g l)).
Proof.
  intros Hl Hv a b Hle.
  destruct (fit_normal_equations f g l Hl Hv) as [N1 N2].
  destruct (fit_coef f g l Hl) as (_ & _ & Hvar).
  pose proof (np_var_nonneg (map f l)) as Hvn.
  pose proof (INR_length_nonzero l Hl) as Hn.
  pose proof (pos_INR (length l)) as Hn0.
  set (a0 := intercept_ (fit (map f l) (map g l))) in *.
  set (b0 := coef_ (fit (map f l) (map g l))) in *.
  pose proof (sum_map_nonneg
    (fun r => ((a - a0) + (b - b0) * f r) * ((a - a0) + (b - b0) * f r)) l
    (fun r => Rle_0_sqr _)) as Hq.
  rewrite sum_affine_square in Hq.
  rewrite !sum_residuals in Hle.
  rewrite <- N1, <- N2 in Hle.
  set (n := INR (length l)) in *.
  set (sx := sum (map f l)) in *.
  set (sxx := sum (map (fun r => f r * f r) l)) in *.
  set (c := a - a0) in *. set (d := b - b0) in *.
  assert (HQ : c * c * n + 2 * c * d * sx + d * d * sxx = 0)
    by (unfold c, d in *; lra).
  assert (Hnpos : 0 < n) by lra.
  assert (HK : 0 < n * sxx - sx * sx).
  { assert (E : n * sxx - sx * sx = n * n * np_var (map f l)).
    { rewrite Hvar. field. exact Hn. }
    rewrite E. apply Rmult_lt_0_compat; [apply Rmult_lt_0_compat; lra|lra]. }
  assert (Hid : n * (c * c * n + 2 * c * d * sx + d * d * sxx)
                = (c * n + d * sx) * (c * n + d * sx) + d * d * (n * sxx - sx * sx))
    by ring.
  rewrite HQ, Rmult_0_r in Hid.
  pose proof (Rle_0_sqr (c * n + d * sx)) as S1. unfold Rsqr in S1.
  pose proof (Rle_0_sqr d) as S2. unfold Rsqr in S2.
  assert (Hd2 : d * d = 0).
  { destruct (Req_dec_T (d * d) 0) as [E|N]; [exact E|].
    assert (0 < d * d) by lra.
    assert (0 < d * d * (n * sxx - sx * sx)) by (now apply Rmult_lt_0_compat).
    lra. }
  assert (Hd : d = 0) by (apply Rmult_integral in Hd2; lra).
  assert (Hc2 : (c * n) * (c * n) = 0).
  { rewrite Hd in Hid. lra. }
  assert (Hc : c = 0).
  { apply Rmult_integral in Hc2. assert (c * n = 0) by lra.
    apply Rmult_integral in H. lra. }
  unfold c, d in *. split; lra.
Qed.

End Unique.

(** X10: for a ticker with at least two rows whose excess benchmark
    returns are not constant, the alpha and beta returned by [calc_alphas]
    and [calc_betas] are the only pair whose sum of squared residuals is as
    small as theirs. *)
Theorem capm_fit_is_unique_minimiser :
  forall (h : heap) (self : loc) (sp : StockPerformance)
         (tbl : list ReturnsRow) (t : string),
    analyzer_at h self sp tbl ->
    t ∈ map ticker tbl ->
    let rows := filter (fun r => ticker r = t) tbl in
    let rf := risk_free_rate sp in
    np_var (map (fun r => bench_return r - rf) rows) <> 0 ->
    exists alphas betas a0 b0,
      run_stat (calc_alphas self) "capm_alpha" h = Ok alphas
      /\ run_stat (calc_betas self) "capm_beta" h = Ok betas
      /\ assoc t alphas = Some (Real a0)
      /\ assoc t betas = Some (Real b0)
      /\ forall a b : R, sse rf rows a b <= sse rf rows a0 b0 -> a = a0 /\ b = b0.
Proof.
  intros h self sp tbl t HA Ht rows rf Hvar.
  assert (Hne : rows <> []) by (now apply group_rows_nonempty).
  assert (Hnt : tbl <> []) by (now apply (ticker_nonempty t)).
  eexists _, _, _, _.
  split; [apply (run_alphas _ _ _ _ HA Hnt)|].
  split; [apply (run_betas _ _ _ _ HA Hnt)|].
  rewrite !(assoc_by_ticker_Some _ _ _ Ht).
  rewrite capm_value_alpha, capm_value_beta. cbn [cell].
  split; [reflexivity|]. split; [reflexivity|].
  intros a b Hle. unfold sse in Hle.
  apply (fit_unique (fun r => bench_return r - rf) (fun r => return_ r - rf)
           rows Hne Hvar a b Hle).
Qed.

Lemma capm_fit_is_unique_minimiser_witness :
  let rows := filter (fun r => ticker r = "MSFT-US") demo_tbl in
  let rf := risk_free_rate demo_sp in
  np_var (map (fun r => bench_return r - rf) rows) <> 0
  /\ exists alphas betas a0 b0,
      run_stat (calc_alphas 1%nat) "capm_alpha" demo_heap = Ok alphas
      /\ run_stat (calc_betas 1%nat) "capm_beta" demo_heap = Ok betas
      /\ assoc "MSFT-US" alphas = Some (Real a0)
      /\ assoc "MSFT-US" betas = Some (Real b0)
      /\ forall a b : R, sse rf rows a b <= sse rf rows a0 b0 -> a = a0 /\ b = b0.
Proof.
  intros rows rf. split; [exact demo_var_MSFT|].
  exact (capm_fit_is_unique_minimiser demo_heap 1%nat demo_sp demo_tbl "MSFT-US"
           demo_analyzer elem_of_demo_MSFT demo_var_MSFT).
Defined.

(** * Columns of the results *)

Section Columns.

Lemma assoc_single_ne {V} (col c : string) (v : V) :
  col <> c -> assoc col [(c, v)] = None.
Proof.
  intros Hne. simpl. destruct (String.eqb_spec col c); [contradiction|reflexivity].
Qed.

Lemma read_snoc_other (h : heap) (idx : list string) (col c : string)
    (vals : list npfloat) :
  col <> c -> read_stat (h ++ [OFrame idx [(c, vals)]]) (length h) col = None.
Proof.
  intros Hne. unfold read_stat. rewrite lookup_snoc.
  now rewrite assoc_single_ne.
Qed.

End Columns.

(** X12: on a table that has at least one row, the DataFrame that a
    method returns holds one column only, the one named after the
    statistic.  Reading any other column of it, such
    as the intermediate [return] or, from the result of [calc_cagrs],
    [total_return], fails with [KeyError]. *)
Theorem results_hold_one_column :
  forall (h : heap) (self : loc) (sp : StockPerformance) (tbl : list ReturnsRow)
         (m : stat_method) (col : string),
    analyzer_at h self sp tbl ->
    tbl <> [] ->
    interval sp <> 0%Z ->
    col <> column_of m ->
    run_stat (call m self) col h = Raise KeyError.
Proof.
  intros h self sp tbl m col HA Hne Hi Hcol. unfold run_stat.
  destruct m; simpl in *.
  - rewrite (calc_total_returns_run _ _ _ _ HA).
    now rewrite read_snoc_other.
  - rewrite (calc_cagrs_run _ _ _ _ HA Hi). cbv zeta.
    match goal with
    | |- context [read_stat (?h1 ++ [?o]) (S (length h)) col] =>
        replace (S (length h)) with (length h1)
          by (rewrite length_app; simpl; lia)
    end.
    now rewrite read_snoc_other.
  - rewrite (calc_alphas_run _ _ _ _ HA Hne). now rewrite read_snoc_other.
  - rewrite (calc_betas_run _ _ _ _ HA Hne). now rewrite read_snoc_other.
  - rewrite (calc_sharpe_ratios_run _ _ _ _ HA). now rewrite read_snoc_other.
Qed.

Lemma results_hold_one_column_witness :
  demo_tbl <> []
  /\ interval demo_sp <> 0%Z
  /\ "total_return" <> column_of Cagrs
  /\ run_stat (call Cagrs 1%nat) "total_return" demo_heap = Raise KeyError.
Proof.
  assert (Hne : demo_tbl <> []) by discriminate.
  assert (Hi : interval demo_sp <> 0%Z) by discriminate.
  assert (Hc : "total_return" <> column_of Cagrs) by discriminate.
  split; [exact Hne|]. split; [exact Hi|]. split; [exact Hc|].
  exact (results_hold_one_column demo_heap 1%nat demo_sp demo_tbl Cagrs
           "total_return" demo_analyzer Hne Hi Hc).
Defined.

(** * The test harness *)

Section Rounding.

Lemma rint_near (y : R) : Rabs (IZR (rint y) - y) <= 1 / 2.
Proof.
  unfold rint. cbv zeta.
  destruct (base_Int_part y) as [Hlo Hhi].
  destruct (Rlt_dec (y - IZR (Int_part y)) (1 / 2)) as [H1|H1].
  - apply Rabs_le. lra.
  - destruct (Rlt_dec (1 / 2) (y - IZR (Int_part y))) as [H2|H2].
    + rewrite plus_IZR. apply Rabs_le. lra.
    + destruct (Z.even (Int_part y)).
      * apply Rabs_le. lra.
      * rewrite plus_IZR. apply Rabs_le. lra.
Qed.

Lemma rint_spec (y : R) (z : Z) :
  IZR z - 1 / 2 < y < IZR z + 1 / 2 -> rint y = z.
Proof.
  intros [Hlo Hhi]. unfold rint. cbv zeta.
  destruct (base_Int_part y) as [Klo Khi].
  assert (Hk : Int_part y = z \/ Int_part y = (z - 1)%Z).
  { assert (IZR (Int_part y) < IZR (z + 1)) by (rewrite plus_IZR; lra).
    assert (IZR (z - 2) < IZR (Int_part y)) by (rewrite minus_IZR; lra).
    apply lt_IZR in H, H0. lia. }
  destruct Hk as [E|E]; rewrite E in *.
  - destruct (Rlt_dec (y - IZR z) (1 / 2)); [reflexivity|lra].
  - rewrite minus_IZR in *.
    destruct (Rlt_dec (y - (IZR z - 1)) (1 / 2)); [lra|].
    destruct (Rlt_dec (1 / 2) (y - (IZR z - 1))); [lia|lra].
Qed.

Lemma pow10_pos (d : nat) : 0 < 10 ^ d.
Proof. apply pow_lt. lra. Qed.

(** Rounding to [d] decimals moves a value by at most half a unit of the
    last place. *)
Lemma round_to_near (d : nat) (r : R) :
  Rabs (round_to d r - r) <= / 2 * / 10 ^ d.
Proof.
  unfold round_to. pose proof (pow10_pos d) as Hp.
  pose proof (rint_near (r * 10 ^ d)) as H.
  replace (IZR (rint (r * 10 ^ d)) / 10 ^ d - r)
    with ((IZR (rint (r * 10 ^ d)) - r * 10 ^ d) * / 10 ^ d)
    by (field; lra).
  rewrite Rabs_mult, (Rabs_pos_eq (/ 10 ^ d))
    by (left; now apply Rinv_0_lt_compat).
  apply Rmult_le_compat_r; [left; now apply Rinv_0_lt_compat|lra].
Qed.

Lemma round_to_exact (d : nat) (z : Z) : round_to d (IZR z / 10 ^ d) = IZR z / 10 ^ d.
Proof.
  unfold round_to. pose proof (pow10_pos d) as Hp.
  replace (IZR z / 10 ^ d * 10 ^ d) with (IZR z) by (field; lra).
  rewrite (rint_spec (IZR z) z) by lra. reflexivity.
Qed.

End Rounding.

Section Harness.

Lemma run_stat_call (m : stat_method) (h : heap) (self : loc) sp tbl :
  analyzer_at h self sp tbl ->
  tbl <> [] ->
  interval sp <> 0%Z ->
  run_stat (call m self) (column_of m) h = Ok (by_ticker (value_of sp m) tbl).
Proof.
  intros HA Hne Hi. destruct m; simpl.
  - apply (run_total_returns _ _ _ _ HA).
  - apply (run_cagrs _ _ _ _ HA Hi).
  - apply (run_alphas _ _ _ _ HA Hne).
  - apply (run_betas _ _ _ _ HA Hne).
  - apply (run_sharpe_ratios _ _ _ _ HA).
Qed.

Lemma getitem_run (h : heap) (l : loc) idx cols (col : string) vals :
  h !! l = Some (OFrame idx cols) -> assoc col cols = Some vals ->
  getitem l col h = (Ok vals, h).
Proof.
  intros Hl Hc. unfold getitem.
  rewrite (bind_Ok _ _ _ _ _ (get_frame_run _ _ _ _ Hl)). simpl. now rewrite Hc.
Qed.

Lemma assoc_single {V} (c : string) (v : V) : assoc c [(c, v)] = Some v.
Proof. simpl. now rewrite String.eqb_refl. Qed.

(** One [try] block on a well-formed analyzer: the method's frame is
    added to the heap and the verdict is that of [assert_allclose] on the
    rounded values. *)
Lemma check_call_run (m : stat_method) (h : heap) (self : loc) sp tbl
    (decimals : nat) (expected : list R) (rtol : R) :
  analyzer_at h self sp tbl ->
  (m = Cagrs -> interval sp <> 0%Z) ->
  (m = Alphas \/ m = Betas -> tbl <> []) ->
  exists ext,
    check (call m self) (column_of m) decimals expected rtol h
    = (Ok (assert_allclose
             (map (np_round decimals) (map snd (by_ticker (value_of sp m) tbl)))
             (map (round_to 4) expected) rtol),
       h ++ ext).
Proof.
  intros HA Hi Hne. unfold check. destruct m; simpl.
  - eexists. rewrite (bind_Ok _ _ _ _ _ (calc_total_returns_run _ _ _ _ HA)).
    erewrite bind_Ok by (eapply getitem_run; [apply lookup_snoc|apply assoc_single]).
    reflexivity.
  - eexists. rewrite (bind_Ok _ _ _ _ _ (calc_cagrs_run _ _ _ _ HA (Hi eq_refl))).
    erewrite bind_Ok.
    2:{ eapply getitem_run; [|apply assoc_single].
        match goal with
        | |- (?h1 ++ [?o]) !! _ = _ =>
            replace (S (length h)) with (length h1)
              by (rewrite length_app; simpl; lia)
        end.
        apply lookup_snoc. }
    rewrite <- app_assoc. unfold by_ticker. rewrite !map_map. reflexivity.
  - eexists.
    rewrite (bind_Ok _ _ _ _ _ (calc_alphas_run _ _ _ _ HA (Hne (or_introl eq_refl)))).
    erewrite bind_Ok by (eapply getitem_run; [apply lookup_snoc|apply assoc_single]).
    reflexivity.
  - eexists.
    rewrite (bind_Ok _ _ _ _ _ (calc_betas_run _ _ _ _ HA (Hne (or_intror eq_refl)))).
    erewrite bind_Ok by (eapply getitem_run; [apply lookup_snoc|apply assoc_single]).
    reflexivity.
  - eexists. rewrite (bind_Ok _ _ _ _ _ (calc_sharpe_ratios_run _ _ _ _ HA)).
    erewrite bind_Ok by (eapply getitem_run; [apply lookup_snoc|apply assoc_single]).
    reflexivity.
Qed.

Lemma unittests_run (h0 : heap) fetched (test_case : list TestRow) (s e : Date) bench :
  valid_date s = true ->
  valid_date e = true ->
  (ymd2ord e - ymd2ord s + 1 <> 0)%Z ->
  let tbl := dropna (merge_left
               (map (fun r => mkDbRow (p_date r) (ticker_region r)
                                      (one_day_pct r / 100)) fetched) bench) in
  tbl <> [] ->
  let sp := {| days_in_year := 365.25; risk_free_rate := 0.00007;
               tickers := map tc_ticker test_case; start_date := s; end_date := e;
               interval := (ymd2ord e - ymd2ord s + 1)%Z;
               daily_returns := length h0 |} in
  let ok m d col rtol :=
    assert_allclose
      (map (np_round d) (map snd (by_ticker (value_of sp m) tbl)))
      (map (round_to 4) (map col test_case)) rtol in
  let ok1 := ok TotalReturns 3%nat tc_total_return 0.01 in
  let ok2 := ok Cagrs 3%nat tc_cagr 0.01 in
  let ok3 := ok Alphas 4%nat tc_capm_alpha 0.0001 in
  let ok4 := ok Betas 2%nat tc_capm_beta 0.01 in
  let ok5 := ok SharpeRatios 2%nat tc_sharpe_ratio 0.01 in
  exists hf,
    unittests fetched test_case s e bench h0
    = (Ok (ok1 && ok2 && ok3 && ok4 && ok5,
           (if ok1 then [] else ["Total Return Test Failed"])
           ++ (if ok2 then [] else ["CAGR Test Failed"])
           ++ (if ok3 then [] else ["Alpha Test Failed"])
           ++ (if ok4 then [] else ["Beta Test Failed"])
           ++ (if ok5 then [] else ["Sharpe Ratio Test Failed"])
           ++ (if ok1 && ok2 && ok3 && ok4 && ok5
               then ["All Tests Passed!"] else [])),
       hf).
Proof.
  intros Hs He Hi tbl Hne sp ok ok1 ok2 ok3 ok4 ok5.
  assert (HA : analyzer_at (h0 ++ [OTable tbl; OSelf sp]) (S (length h0)) sp tbl)
    by (now apply analyzer_at_snoc2).
  assert (Hi' : forall m, m = Cagrs -> interval sp <> 0%Z) by (intros _ _; exact Hi).
  assert (Hne' : forall m, m = Alphas \/ m = Betas -> tbl <> [])
    by (intros _ _; exact Hne).
  destruct (check_call_run TotalReturns _ _ _ _ 3%nat
              (map tc_total_return test_case) 0.01 HA (Hi' _) (Hne' _)) as [x1 E1].
  pose proof (analyzer_at_app _ x1 _ _ _ HA) as HA1.
  destruct (check_call_run Cagrs _ _ _ _ 3%nat
              (map tc_cagr test_case) 0.01 HA1 (Hi' _) (Hne' _)) as [x2 E2].
  pose proof (analyzer_at_app _ x2 _ _ _ HA1) as HA2.
  destruct (check_call_run Alphas _ _ _ _ 4%nat
              (map tc_capm_alpha test_case) 0.0001 HA2 (Hi' _) (Hne' _)) as [x3 E3].
  pose proof (analyzer_at_app _ x3 _ _ _ HA2) as HA3.
  destruct (check_call_run Betas _ _ _ _ 2%nat
              (map tc_capm_beta test_case) 0.01 HA3 (Hi' _) (Hne' _)) as [x4 E4].
  pose proof (analyzer_at_app _ x4 _ _ _ HA3) as HA4.
  destruct (check_call_run SharpeRatios _ _ _ _ 2%nat
              (map tc_sharpe_ratio test_case) 0.01 HA4 (Hi' _) (Hne' _)) as [x5 E5].
  eexists. unfold unittests.
  rewrite (bind_Ok _ _ _ _ _ (init_run h0 fetched _ s e bench Hs He)).
  fold tbl. fold sp.
  simpl call in E1, E2, E3, E4, E5. simpl column_of in E1, E2, E3, E4, E5.
  rewrite (bind_Ok _ _ _ _ _ E1), (bind_Ok _ _ _ _ _ E2), (bind_Ok _ _ _ _ _ E3),
          (bind_Ok _ _ _ _ _ E4), (bind_Ok _ _ _ _ _ E5).
  reflexivity.
Qed.

End Harness.

Section Verdicts.

Lemma isclose_within (d : nat) (rtol : R) (v : npfloat) (e : R) :
  isclose rtol (np_round d v) (round_to 4 e) = true -> within d rtol v e.
Proof.
  destruct v as [x| | |]; simpl; try discriminate.
  destruct (Rle_dec _ _) as [Hle|]; [|discriminate]. intros _.
  exists x. split; [reflexivity|].
  pose proof (round_to_near d x) as Hr.
  replace (x - round_to 4 e)
    with ((round_to d x - round_to 4 e) - (round_to d x - x)) by lra.
  eapply Rle_trans; [apply Rabs_triang|].
  rewrite Rabs_Ropp. lra.
Qed.

Lemma assert_allclose_within (d : nat) (rtol : R) (vals : list npfloat) (exp : list R) :
  assert_allclose (map (np_round d) vals) (map (round_to 4) exp) rtol = true ->
  Forall2 (within d rtol) vals exp.
Proof.
  unfold assert_allclose. rewrite !length_map. intros H.
  apply andb_prop in H as [Hlen Hall]. apply Nat.eqb_eq in Hlen.
  revert exp Hlen Hall. induction vals as [|v vals IH]; intros [|e exp] Hlen Hall;
    simpl in *; try discriminate.
  - constructor.
  - apply andb_prop in Hall as [H1 H2]. constructor.
    + now apply isclose_within.
    + apply IH; [lia|exact H2].
Qed.

Lemma assert_allclose_shape (actual : list npfloat) (desired : list R) (rtol : R) :
  length actual <> length desired -> assert_allclose actual desired rtol = false.
Proof.
  intros Hne. unfold assert_allclose.
  destruct (Nat.eqb_spec (length actual) (length desired)); [contradiction|reflexivity].
Qed.

Lemma unittests_raise_date (h0 : heap) fetched (test_case : list TestRow)
    (s e : Date) bench :
  valid_date s = false \/ valid_date e = false ->
  exists hf, unittests fetched test_case s e bench h0 = (Raise ValueError, hf).
Proof.
  intros Hbad. unfold unittests.
  destruct (init_rejects_non_dates h0 fetched (map tc_ticker test_case) s e bench Hbad)
    as [hf E].
  exists hf. now rewrite (bind_Raise _ _ _ _ _ E).
Qed.

Lemma unittests_raise_zero (h0 : heap) fetched (test_case : list TestRow)
    (s e : Date) bench :
  valid_date s = true ->
  valid_date e = true ->
  (ymd2ord e - ymd2ord s + 1 = 0)%Z ->
  exists hf, unittests fetched test_case s e bench h0 = (Raise ZeroDivisionError, hf).
Proof.
  intros Hs He Hz. unfold unittests.
  rewrite (bind_Ok _ _ _ _ _ (init_run h0 fetched _ s e bench Hs He)).
  match goal with
  | |- context [OSelf ?r] => set (sp := r)
  end.
  match goal with
  | |- context [OTable ?t] => set (tbl := t)
  end.
  assert (HA : analyzer_at (h0 ++ [OTable tbl; OSelf sp]) (S (length h0)) sp tbl)
    by (now apply analyzer_at_snoc2).
  destruct (check_call_run TotalReturns _ _ _ _ 3%nat
              (map tc_total_return test_case) 0.01 HA ltac:(discriminate)
              ltac:(intros [?|?]; discriminate))
    as [x1 E1].
  simpl call in E1. simpl column_of in E1.
  rewrite (bind_Ok _ _ _ _ _ E1).
  pose proof (analyzer_at_app _ x1 _ _ _ HA) as HA1.
  eexists. erewrite bind_Raise; [reflexivity|].
  unfold check. erewrite bind_Raise; [reflexivity|].
  now apply (calc_cagrs_raise _ _ _ _ HA1).
Qed.

(** When the merged table has no row, the first two comparisons are made
    and then [calc_alphas] raises [ValueError], which the [try] blocks do
    not catch. *)
Lemma unittests_raise_empty (h0 : heap) fetched (test_case : list TestRow)
    (s e : Date) bench :
  valid_date s = true ->
  valid_date e = true ->
  (ymd2ord e - ymd2ord s + 1 <> 0)%Z ->
  dropna (merge_left
            (map (fun r => mkDbRow (p_date r) (ticker_region r)
                                   (one_day_pct r / 100)) fetched) bench) = [] ->
  exists hf, unittests fetched test_case s e bench h0 = (Raise ValueError, hf).
Proof.
  intros Hs He Hnz Hemp. unfold unittests.
  rewrite (bind_Ok _ _ _ _ _ (init_run h0 fetched _ s e bench Hs He)).
  rewrite Hemp.
  match goal with
  | |- context [OSelf ?r] => set (sp := r)
  end.
  assert (HA : analyzer_at (h0 ++ [OTable []; OSelf sp]) (S (length h0)) sp [])
    by (now apply analyzer_at_snoc2).
  destruct (check_call_run TotalReturns _ _ _ _ 3%nat
              (map tc_total_return test_case) 0.01 HA ltac:(discriminate)
              ltac:(intros [?|?]; discriminate))
    as [x1 E1].
  simpl call in E1. simpl column_of in E1.
  rewrite (bind_Ok _ _ _ _ _ E1).
  pose proof (analyzer_at_app _ x1 _ _ _ HA) as HA1.
  destruct (check_call_run Cagrs _ _ _ _ 3%nat
              (map tc_cagr test_case) 0.01 HA1 ltac:(intros _; exact Hnz)
              ltac:(intros [?|?]; discriminate))
    as [x2 E2].
  simpl call in E2. simpl column_of in E2.
  rewrite (bind_Ok _ _ _ _ _ E2).
  pose proof (analyzer_at_app _ x2 _ _ _ HA1) as HA2.
  eexists. erewrite bind_Raise; [reflexivity|].
  unfold check. erewrite bind_Raise; [reflexivity|].
  now apply (calc_alphas_raise _ _ _ HA2).
Qed.

End Verdicts.

(** X13: a passing run certifies the five statistics.  If [unittests]
    returns [True], then the analyzer was built and, position by position
    along the result's rows, every statistic is a finite number within
    half a unit of its rounding place plus the relative tolerance of the
    expected value: total return and growth rate at 3 decimals and 1%,
    alpha at 4 decimals and 0.01%, beta and Sharpe ratio at 2 decimals and
    1%. *)
Theorem unittests_pass_bounds_statistics :
  forall (h0 hf : heap) (fetched : list DbRow) (test_case : list TestRow)
         (s e : Date) (bench : list BenchRow) (out : list string),
    unittests fetched test_case s e bench h0 = (Ok (true, out), hf) ->
    exists self h totals cagrs alphas betas sharpes,
      __init__ fetched (map tc_ticker test_case) s e bench h0 = (Ok self, h)
      /\ run_stat (calc_total_returns self) "total_return" h = Ok totals
      /\ run_stat (calc_cagrs self) "cagr" h = Ok cagrs
      /\ run_stat (calc_alphas self) "capm_alpha" h = Ok alphas
      /\ run_stat (calc_betas self) "capm_beta" h = Ok betas
      /\ run_stat (calc_sharpe_ratios self) "sharpe_ratio" h = Ok sharpes
      /\ Forall2 (within 3 0.01) (map snd totals) (map tc_total_return test_case)
      /\ Forall2 (within 3 0.01) (map snd cagrs) (map tc_cagr test_case)
      /\ Forall2 (within 4 0.0001) (map snd alphas) (map tc_capm_alpha test_case)
      /\ Forall2 (within 2 0.01) (map snd betas) (map tc_capm_beta test_case)
      /\ Forall2 (within 2 0.01) (map snd sharpes) (map tc_sharpe_ratio test_case)
      /\ out = ["All Tests Passed!"].
Proof.
  intros h0 hf fetched test_case s e bench out Hrun.
  destruct (valid_date s) eqn:Hs.
  2:{ destruct (unittests_raise_date h0 fetched test_case s e bench (or_introl Hs))
        as [hf' E]. rewrite E in Hrun. discriminate. }
  destruct (valid_date e) eqn:He.
  2:{ destruct (unittests_raise_date h0 fetched test_case s e bench (or_intror He))
        as [hf' E]. rewrite E in Hrun. discriminate. }
  destruct (Z.eq_dec (ymd2ord e - ymd2ord s + 1)%Z 0%Z) as [Hz|Hnz].
  { destruct (unittests_raise_zero h0 fetched test_case s e bench Hs He Hz)
      as [hf' E]. rewrite E in Hrun. discriminate. }
  set (tbl := dropna (merge_left
                (map (fun r => mkDbRow (p_date r) (ticker_region r)
                                       (one_day_pct r / 100)) fetched) bench)).
  assert (Hne : tbl <> []).
  { intros Hemp.
    destruct (unittests_raise_empty h0 fetched test_case s e bench Hs He Hnz Hemp)
      as [hf' E]. rewrite E in Hrun. discriminate. }
  destruct (unittests_run h0 fetched test_case s e bench Hs He Hnz Hne) as [hf' E].
  cbv zeta in E. rewrite E in Hrun. clear E. fold tbl in Hrun.
  set (sp := {| days_in_year := 365.25; risk_free_rate := 0.00007;
                tickers := map tc_ticker test_case; start_date := s; end_date := e;
                interval := (ymd2ord e - ymd2ord s + 1)%Z;
                daily_returns := length h0 |}) in *.
  assert (HA : analyzer_at (h0 ++ [OTable tbl; OSelf sp]) (S (length h0)) sp tbl)
    by (now apply analyzer_at_snoc2).
  assert (Hi : interval sp <> 0%Z) by exact Hnz.
  pose proof (init_run h0 fetched (map tc_ticker test_case) s e bench Hs He) as Hinit.
  fold tbl in Hinit. fold sp in Hinit.
  injection Hrun as Hok Hout _.
  apply andb_prop in Hok as [Hok H5]. apply andb_prop in Hok as [Hok H4].
  apply andb_prop in Hok as [Hok H3]. apply andb_prop in Hok as [H1 H2].
  eexists _, _, _, _, _, _, _.
  split; [exact Hinit|].
  split; [apply (run_stat_call TotalReturns _ _ _ _ HA Hne Hi)|].
  split; [apply (run_stat_call Cagrs _ _ _ _ HA Hne Hi)|].
  split; [apply (run_stat_call Alphas _ _ _ _ HA Hne Hi)|].
  split; [apply (run_stat_call Betas _ _ _ _ HA Hne Hi)|].
  split; [apply (run_stat_call SharpeRatios _ _ _ _ HA Hne Hi)|].
  split; [now apply assert_allclose_within|].
  split; [now apply assert_allclose_within|].
  split; [now apply assert_allclose_within|].
  split; [now apply assert_allclose_within|].
  split; [now apply assert_allclose_within|].
  rewrite <- Hout, H1, H2, H3, H4, H5. reflexivity.
Qed.

(** X14: for a test case of at least one row, when the merged table has
    rows and the number of rows of the test case differs from the number
    of its distinct tickers (one of several tickers without data, for
    instance), every comparison fails on the shapes: [unittests] raises nothing, returns [False] and prints
    the five failure lines. *)
Theorem unittests_fails_on_missing_ticker :
  forall (h0 : heap) (fetched : list DbRow) (test_case : list TestRow)
         (s e : Date) (bench : list BenchRow),
    test_case <> [] ->
    valid_date s = true ->
    valid_date e = true ->
    (ymd2ord e - ymd2ord s + 1 <> 0)%Z ->
    let tbl := dropna (merge_left
                 (map (fun r => mkDbRow (p_date r) (ticker_region r)
                                        (one_day_pct r / 100)) fetched) bench) in
    tbl <> [] ->
    length test_case <> length (group_keys tbl) ->
    exists hf,
      unittests fetched test_case s e bench h0
      = (Ok (false,
             ["Total Return Test Failed"; "CAGR Test Failed";
              "Alpha Test Failed"; "Beta Test Failed";
              "Sharpe Ratio Test Failed"]),
         hf).
Proof.
  intros h0 fetched test_case s e bench _ Hs He Hnz tbl Hne Hlen.
  destruct (unittests_run h0 fetched test_case s e bench Hs He Hnz Hne) as [hf E].
  exists hf. cbv zeta in E. rewrite E. fold tbl.
  rewrite !assert_allclose_shape; [reflexivity| | | | |];
    rewrite !length_map; unfold by_ticker; rewrite length_map; congruence.
Qed.

(** X15: only [AssertionError] is caught.  When [end_date] is the day
    before [start_date] the interval is zero, [calc_cagrs] raises
    [ZeroDivisionError] inside the second [try] block, and the exception
    leaves [unittests]: no verdict is returned. *)
Theorem unittests_lets_zero_division_escape :
  forall (h0 : heap) (fetched : list DbRow) (test_case : list TestRow)
         (s e : Date) (bench : list BenchRow),
    valid_date s = true ->
    valid_date e = true ->
    (ymd2ord e - ymd2ord s + 1 = 0)%Z ->
    exists hf, unittests fetched test_case s e bench h0 = (Raise ZeroDivisionError, hf).
Proof.
  intros h0 fetched test_case s e bench Hs He Hz.
  now apply unittests_raise_zero.
Qed.

Section PassingRun.

Lemma rint_IZR (z : Z) : rint (IZR z) = z.
Proof. apply rint_spec. lra. Qed.

Lemma round_to_IZR (d : nat) (z : Z) : round_to d (IZR z) = IZR z.
Proof.
  unfold round_to. pose proof (pow10_pos d) as Hp.
  replace (IZR z * 10 ^ d) with (IZR (z * 10 ^ Z.of_nat d))
    by (rewrite mult_IZR, <- pow_IZR; reflexivity).
  rewrite rint_IZR, mult_IZR, <- pow_IZR. field. lra.
Qed.

Lemma isclose_eq (rtol x y : R) : 0 <= rtol -> x = y -> isclose rtol (Real x) y = true.
Proof.
  intros Hr ->. simpl. destruct (Rle_dec _ _) as [_|N]; [reflexivity|].
  exfalso. apply N. replace (y - y) with 0 by lra. rewrite Rabs_R0.
  apply Rmult_le_pos; [exact Hr|apply Rabs_pos].
Qed.

Lemma assert_allclose_single (d : nat) (rtol x e : R) :
  0 <= rtol -> round_to d x = round_to 4 e ->
  assert_allclose [np_round d (Real x)] [round_to 4 e] rtol = true.
Proof.
  intros Hr E. unfold assert_allclose.
  cbn [map np_round length combine forallb fst snd Nat.eqb andb].
  now rewrite (isclose_eq rtol _ _ Hr E).
Qed.

Lemma pass_tbl_rows :
  dropna (merge_left
    (map (fun r => mkDbRow (p_date r) (ticker_region r) (one_day_pct r / 100))
         pass_fetched) pass_bench)
  = pass_rows.
Proof. reflexivity. Qed.

Lemma pass_group : group_rows "X" pass_rows = pass_rows.
Proof. reflexivity. Qed.

Lemma pass_keys : group_keys pass_rows = ["X"].
Proof. reflexivity. Qed.

Lemma pass_total : total_return_of pass_rows = Real 0.
Proof.
  unfold total_return_of, total_return. simpl. rewrite !prod_cons, prod_nil.
  f_equal. lra.
Qed.

Lemma np_pow_pos_base (b e : R) : 0 < b -> np_pow (Real b) e = Real (Rpower b e).
Proof.
  intros Hb. destruct (Req_dec_T e 0) as [->|He].
  - unfold np_pow. destruct (Req_dec_T 0 0) as [_|N]; [|now contradiction N].
    now rewrite Rpower_O.
  - now apply np_pow_pos.
Qed.

Lemma Rpower_one (e : R) : Rpower 1 e = 1.
Proof. unfold Rpower. rewrite ln_1, Rmult_0_r. apply exp_0. Qed.

Lemma cagr_value_zero (e : R) : cagr_value e (Real 0) = Real 0.
Proof.
  unfold cagr_value. cbn [np_add].
  rewrite np_pow_pos_base by lra.
  replace (1 + 0) with 1 by lra. rewrite Rpower_one. simpl. f_equal. lra.
Qed.

Lemma fit_same {A} (f : A -> R) (l : list A) :
  l <> [] ->
  np_var (map f l) <> 0 ->
  coef_ (fit (map f l) (map f l)) = 1 /\ intercept_ (fit (map f l) (map f l)) = 0.
Proof.
  intros Hl Hv.
  destruct (fit_coef f f l Hl) as (Hc & Hi & Hvar).
  cbv zeta in Hc, Hi, Hvar.
  assert (Hcxx : sum (map (fun a => f a * f a) l)
                 - sum (map f l) * sum (map f l) / INR (length l) <> 0).
  { intros E. apply Hv. rewrite Hvar, E. unfold Rdiv. ring. }
  destruct (Req_dec_T _ 0) as [E|_] in Hc; [contradiction|].
  assert (Hb : coef_ (fit (map f l) (map f l)) = 1).
  { rewrite Hc. unfold Rdiv at 1. now apply Rinv_r. }
  split; [exact Hb|]. rewrite Hi, Hb. lra.
Qed.

Lemma pass_capm (rf : R) :
  capm_value rf pass_rows "alpha" = Some 0 /\ capm_value rf pass_rows "beta" = Some 1.
Proof.
  rewrite capm_value_alpha, capm_value_beta.
  assert (Hy : map (fun r => return_ r - rf) pass_rows
               = map (fun r => bench_return r - rf) pass_rows).
  { unfold pass_rows. cbn [map return_ bench_return]. repeat f_equal; lra. }
  rewrite Hy.
  assert (Hne : pass_rows <> []) by discriminate.
  assert (Hv : np_var (map (fun r => bench_return r - rf) pass_rows) <> 0).
  { unfold np_var, np_mean, pass_rows. cbn [map length bench_return].
    rewrite !sum_cons, !sum_nil. simpl INR. intros E. nra. }
  destruct (fit_same (fun r => bench_return r - rf) pass_rows Hne Hv) as [-> ->].
  split; reflexivity.
Qed.

Lemma pass_std : np_std (map return_ pass_rows) = 0.75.
Proof.
  unfold np_std.
  assert (Hv : np_var (map return_ pass_rows) = 0.75 * 0.75).
  { unfold np_var, np_mean. simpl. rewrite !sum_cons, !sum_nil. lra. }
  rewrite Hv. apply sqrt_square. lra.
Qed.

Lemma pass_sharpe :
  exists x, sharpe_value 0.00007 (map return_ pass_rows) = Real x
            /\ round_to 2 x = round_to 4 0.33.
Proof.
  unfold sharpe_value. rewrite pass_std, np_truediv_finite by lra.
  eexists. split; [reflexivity|].
  assert (Hm : np_mean (map return_ pass_rows) = 0.25).
  { unfold np_mean. simpl. rewrite !sum_cons, !sum_nil. lra. }
  rewrite Hm. unfold round_to.
  rewrite (rint_spec _ 33) by (simpl; lra).
  rewrite (rint_spec _ 3300) by (simpl; lra).
  simpl. lra.
Qed.

(** The sample test case passes. *)
Lemma pass_run :
  exists hf,
    unittests pass_fetched pass_test_case (mkDate 2017 1 1) (mkDate 2017 9 30)
              pass_bench []
    = (Ok (true, ["All Tests Passed!"]), hf).
Proof.
  destruct (unittests_run [] pass_fetched pass_test_case (mkDate 2017 1 1)
              (mkDate 2017 9 30) pass_bench eq_refl eq_refl ltac:(discriminate)
              ltac:(rewrite pass_tbl_rows; discriminate))
    as [hf E].
  exists hf. cbv zeta in E. rewrite E. clear E.
  rewrite pass_tbl_rows.
  unfold by_ticker. rewrite pass_keys. cbn [map snd value_of pass_test_case
    tc_total_return tc_cagr tc_capm_alpha tc_capm_beta tc_sharpe_ratio
    days_in_year risk_free_rate interval].
  rewrite pass_group, pass_total, cagr_value_zero.
  destruct (pass_capm 0.00007) as [-> ->].
  destruct pass_sharpe as (x & -> & Hx). cbn [cell].
  rewrite (assert_allclose_single 3 0.01 0 0) by (lra || now rewrite !(round_to_IZR _ 0)).
  rewrite (assert_allclose_single 4 0.0001 0 0) by (lra || now rewrite !(round_to_IZR _ 0)).
  rewrite (assert_allclose_single 2 0.01 1 1) by (lra || now rewrite !(round_to_IZR _ 1)).
  rewrite (assert_allclose_single 2 0.01 x 0.33) by (lra || exact Hx).
  reflexivity.
Qed.

End PassingRun.

Lemma unittests_pass_bounds_statistics_witness :
  exists hf,
    unittests pass_fetched pass_test_case (mkDate 2017 1 1) (mkDate 2017 9 30)
              pass_bench []
    = (Ok (true, ["All Tests Passed!"]), hf)
    /\ exists self h totals cagrs alphas betas sharpes,
        __init__ pass_fetched (map tc_ticker pass_test_case)
                 (mkDate 2017 1 1) (mkDate 2017 9 30) pass_bench [] = (Ok self, h)
        /\ run_stat (calc_total_returns self) "total_return" h = Ok totals
        /\ run_stat (calc_cagrs self) "cagr" h = Ok cagrs
        /\ run_stat (calc_alphas self) "capm_alpha" h = Ok alphas
        /\ run_stat (calc_betas self) "capm_beta" h = Ok betas
        /\ run_stat (calc_sharpe_ratios self) "sharpe_ratio" h = Ok sharpes
        /\ Forall2 (within 3 0.01) (map snd totals) (map tc_total_return pass_test_case)
        /\ Forall2 (within 3 0.01) (map snd cagrs) (map tc_cagr pass_test_case)
        /\ Forall2 (within 4 0.0001) (map snd alphas) (map tc_capm_alpha pass_test_case)
        /\ Forall2 (within 2 0.01) (map snd betas) (map tc_capm_beta pass_test_case)
        /\ Forall2 (within 2 0.01) (map snd sharpes) (map tc_sharpe_ratio pass_test_case)
        /\ ["All Tests Passed!"] = ["All Tests Passed!"].
Proof.
  destruct pass_run as [hf Hrun]. exists hf. split; [exact Hrun|].
  exact (unittests_pass_bounds_statistics [] hf pass_fetched pass_test_case
           (mkDate 2017 1 1) (mkDate 2017 9 30) pass_bench _ Hrun).
Defined.

Lemma unittests_fails_on_missing_ticker_witness :
  let tbl := dropna (merge_left
               (map (fun r => mkDbRow (p_date r) (ticker_region r)
                                      (one_day_pct r / 100)) demo_fetched)
               demo_bench) in
  demo_test_case <> []
  /\ length demo_test_case = 3%nat
  /\ length (group_keys tbl) = 2%nat
  /\ tbl <> []
  /\ exists hf,
      unittests demo_fetched demo_test_case (mkDate 2017 1 1) (mkDate 2017 9 30)
                demo_bench []
      = (Ok (false,
             ["Total Return Test Failed"; "CAGR Test Failed";
              "Alpha Test Failed"; "Beta Test Failed";
              "Sharpe Ratio Test Failed"]),
         hf).
Proof.
  intros tbl.
  assert (H3 : length demo_test_case = 3%nat) by reflexivity.
  assert (H2 : length (group_keys tbl) = 2%nat) by reflexivity.
  assert (Hne : tbl <> []).
  { intros E. rewrite E in H2. discriminate H2. }
  assert (Htc : demo_test_case <> []) by discriminate.
  split; [exact Htc|].
  split; [exact H3|]. split; [exact H2|]. split; [exact Hne|].
  apply (unittests_fails_on_missing_ticker [] demo_fetched demo_test_case
           (mkDate 2017 1 1) (mkDate 2017 9 30) demo_bench Htc eq_refl eq_refl).
  - discriminate.
  - exact Hne.
  - fold tbl. rewrite H3, H2. discriminate.
Defined.

Lemma unittests_lets_zero_division_escape_witness :
  valid_date (mkDate 2017 1 2) = true
  /\ valid_date (mkDate 2017 1 1) = true
  /\ (ymd2ord (mkDate 2017 1 1) - ymd2ord (mkDate 2017 1 2) + 1 = 0)%Z
  /\ exists hf,
      unittests demo_fetched demo_test_case (mkDate 2017 1 2) (mkDate 2017 1 1)
                demo_bench []
      = (Raise ZeroDivisionError, hf).
Proof.
  split; [reflexivity|]. split; [reflexivity|]. split; [reflexivity|].
  exact (unittests_lets_zero_division_escape [] demo_fetched demo_test_case
           (mkDate 2017 1 2) (mkDate 2017 1 1) demo_bench eq_refl eq_refl eq_refl).
Defined.

Section AlphaTolerance.

(** Two values at four decimals, the second below one in magnitude, that
    are within 0.01% of the second are the same value. *)
Lemma isclose_exact4 (x e : R) :
  isclose 0.0001 (Real (round_to 4 x)) (round_to 4 e) = true ->
  Rabs (round_to 4 e) < 1 ->
  round_to 4 x = round_to 4 e.
Proof.
  simpl. destruct (Rle_dec _ _) as [Hle|]; [|discriminate]. intros _ Hlt.
  unfold round_to in *.
  set (k := rint (x * 10 ^ 4)) in *. set (m := rint (e * 10 ^ 4)) in *.
  pose proof (Rabs_pos (IZR m / 10 ^ 4)) as Hp.
  assert (Hd : Rabs (IZR k / 10 ^ 4 - IZR m / 10 ^ 4) < 0.0001) by lra.
  apply Rabs_def2 in Hd as [H1 H2].
  assert (Hk : (k = m)%Z).
  { assert (A : IZR (k - m) < IZR 1) by (rewrite minus_IZR; simpl in *; lra).
    assert (B : IZR (-1) < IZR (k - m)) by (rewrite minus_IZR; simpl in *; lra).
    apply lt_IZR in A, B. lia. }
  now rewrite Hk.
Qed.

Lemma assert_allclose_exact4 (vals : list npfloat) (exp : list R) :
  assert_allclose (map (np_round 4) vals) (map (round_to 4) exp) 0.0001 = true ->
  Forall2 (fun v expected =>
             exists x, v = Real x
               /\ (Rabs (round_to 4 expected) < 1 ->
                   round_to 4 x = round_to 4 expected))
          vals exp.
Proof.
  unfold assert_allclose. rewrite !length_map. intros H.
  apply andb_prop in H as [Hlen Hall]. apply Nat.eqb_eq in Hlen.
  revert exp Hlen Hall. induction vals as [|v vals IH]; intros [|e exp] Hlen Hall;
    simpl in *; try discriminate.
  - constructor.
  - apply andb_prop in Hall as [H1 H2]. constructor.
    + destruct v as [y| | |]; try discriminate.
      exists y. split; [reflexivity|]. intros Hlt.
      now apply isclose_exact4.
    + apply IH; [lia|exact H2].
Qed.

End AlphaTolerance.

(** X16: the alpha comparison is an equality at four decimals.  If
    [unittests] returns [True], every alpha is finite and, wherever the
    expected alpha is below one in magnitude, the alpha rounded to four
    decimals equals the expected alpha rounded to four decimals. *)
Theorem unittests_pass_alpha_exact :
  forall (h0 hf : heap) (fetched : list DbRow) (test_case : list TestRow)
         (s e : Date) (bench : list BenchRow) (out : list string),
    unittests fetched test_case s e bench h0 = (Ok (true, out), hf) ->
    exists self h alphas,
      __init__ fetched (map tc_ticker test_case) s e bench h0 = (Ok self, h)
      /\ run_stat (calc_alphas self) "capm_alpha" h = Ok alphas
      /\ Forall2 (fun v expected =>
                    exists x, v = Real x
                      /\ (Rabs (round_to 4 expected) < 1 ->
                          round_to 4 x = round_to 4 expected))
                 (map snd alphas) (map tc_capm_alpha test_case).
Proof.
  intros h0 hf fetched test_case s e bench out Hrun.
  destruct (valid_date s) eqn:Hs.
  2:{ destruct (unittests_raise_date h0 fetched test_case s e bench (or_introl Hs))
        as [hf' E]. rewrite E in Hrun. discriminate. }
  destruct (valid_date e) eqn:He.
  2:{ destruct (unittests_raise_date h0 fetched test_case s e bench (or_intror He))
        as [hf' E]. rewrite E in Hrun. discriminate. }
  destruct (Z.eq_dec (ymd2ord e - ymd2ord s + 1)%Z 0%Z) as [Hz|Hnz].
  { destruct (unittests_raise_zero h0 fetched test_case s e bench Hs He Hz)
      as [hf' E]. rewrite E in Hrun. discriminate. }
  set (tbl := dropna (merge_left
                (map (fun r => mkDbRow (p_date r) (ticker_region r)
                                       (one_day_pct r / 100)) fetched) bench)).
  assert (Hne : tbl <> []).
  { intros Hemp.
    destruct (unittests_raise_empty h0 fetched test_case s e bench Hs He Hnz Hemp)
      as [hf' E]. rewrite E in Hrun. discriminate. }
  destruct (unittests_run h0 fetched test_case s e bench Hs He Hnz Hne) as [hf' E].
  cbv zeta in E. rewrite E in Hrun. clear E. fold tbl in Hrun.
  set (sp := {| days_in_year := 365.25; risk_free_rate := 0.00007;
                tickers := map tc_ticker test_case; start_date := s; end_date := e;
                interval := (ymd2ord e - ymd2ord s + 1)%Z;
                daily_returns := length h0 |}) in *.
  assert (HA : analyzer_at (h0 ++ [OTable tbl; OSelf sp]) (S (length h0)) sp tbl)
    by (now apply analyzer_at_snoc2).
  pose proof (init_run h0 fetched (map tc_ticker test_case) s e bench Hs He) as Hinit.
  fold tbl in Hinit. fold sp in Hinit.
  injection Hrun as Hok _ _.
  apply andb_prop in Hok as [Hok _]. apply andb_prop in Hok as [Hok _].
  apply andb_prop in Hok as [_ H3].
  eexists _, _, _. split; [exact Hinit|].
  split; [apply (run_stat_call Alphas _ _ _ _ HA Hne Hnz)|].
  now apply assert_allclose_exact4.
Qed.

Lemma unittests_pass_alpha_exact_witness :
  exists hf,
    unittests pass_fetched pass_test_case (mkDate 2017 1 1) (mkDate 2017 9 30)
              pass_bench []
    = (Ok (true, ["All Tests Passed!"]), hf)
    /\ exists self h alphas,
        __init__ pass_fetched (map tc_ticker pass_test_case)
                 (mkDate 2017 1 1) (mkDate 2017 9 30) pass_bench [] = (Ok self, h)
        /\ run_stat (calc_alphas self) "capm_alpha" h = Ok alphas
        /\ Forall2 (fun v expected =>
                      exists x, v = Real x
                        /\ (Rabs (round_to 4 expected) < 1 ->
                            round_to 4 x = round_to 4 expected))
                   (map snd alphas) (map tc_capm_alpha pass_test_case).
Proof.
  destruct pass_run as [hf Hrun]. exists hf. split; [exact Hrun|].
  exact (unittests_pass_alpha_exact [] hf pass_fetched pass_test_case
           (mkDate 2017 1 1) (mkDate 2017 9 30) pass_bench _ Hrun).
Defined.

(** X17: for a test case of at least one row, when the merged table has
    no row (no requested ticker has data between the two dates, for
    instance), the first two comparisons are
    made, then [calc_alphas] raises [ValueError]: the result of [apply]
    on a frame without groups keeps the five columns of the table, which
    the one column name does not fit.  The exception leaves [unittests],
    since only [AssertionError] is caught: no verdict is returned. *)
Theorem unittests_raises_on_empty_table :
  forall (h0 : heap) (fetched : list DbRow) (test_case : list TestRow)
         (s e : Date) (bench : list BenchRow),
    test_case <> [] ->
    valid_date s = true ->
    valid_date e = true ->
    (ymd2ord e - ymd2ord s + 1 <> 0)%Z ->
    dropna (merge_left
              (map (fun r => mkDbRow (p_date r) (ticker_region r)
                                     (one_day_pct r / 100)) fetched) bench) = [] ->
    exists hf, unittests fetched test_case s e bench h0 = (Raise ValueError, hf).
Proof.
  intros h0 fetched test_case s e bench _ Hs He Hnz Hemp.
  now apply unittests_raise_empty.
Qed.

Lemma unittests_raises_on_empty_table_witness :
  demo_test_case <> []
  /\ valid_date (mkDate 2017 1 1) = true
  /\ valid_date (mkDate 2017 9 30) = true
  /\ (ymd2ord (mkDate 2017 9 30) - ymd2ord (mkDate 2017 1 1) + 1 <> 0)%Z
  /\ dropna (merge_left
               (map (fun r => mkDbRow (p_date r) (ticker_region r)
                                      (one_day_pct r / 100)) [])
               demo_bench) = []
  /\ exists hf,
      unittests [] demo_test_case (mkDate 2017 1 1) (mkDate 2017 9 30)
                demo_bench []
      = (Raise ValueError, hf).
Proof.
  assert (Hnz : (ymd2ord (mkDate 2017 9 30) - ymd2ord (mkDate 2017 1 1) + 1 <> 0)%Z)
    by discriminate.
  assert (Htc : demo_test_case <> []) by discriminate.
  split; [exact Htc|].
  split; [reflexivity|]. split; [reflexivity|]. split; [exact Hnz|].
  split; [reflexivity|].
  exact (unittests_raises_on_empty_table [] [] demo_test_case
           (mkDate 2017 1 1) (mkDate 2017 9 30) demo_bench
           Htc eq_refl eq_refl Hnz eq_refl).
Defined.
